(** * dish-dispatcher: orders, shelves and the shelf manager

    A shallow embedding of [internal/order/order.go],
    [internal/shelves/shelf.go] and [internal/shelves/manager.go].

    Conventions of the embedding.
    - [float64] arithmetic is an interface ([Float64]); the program is
      written once against it and read at two instances: [binary64]
      (the kernel's IEEE 754 binary64 numbers, which is what the Go
      program computes with when no multiply-add is fused) and [exact]
      (rationals, no rounding, no infinities; [x / 0] is [0] there).
    - a [time.Time] is its instant, in nanoseconds since the zero Time;
      [Time.Sub] saturates at the bounds of an [int64] Duration.
    - [*order.Order] is an address into a store of Order objects, so that
      an order held by a shelf and by its caller is one object.
    - [time.Now()] reads a clock that is part of the world: the n-th
      reading of a run is [clock n].
    - Go [int] counters are integers; they start at 0 and grow by at most
      one shelf's occupancy per call, and are taken not to reach 2^63. *)

From Stdlib Require Import ZArith QArith Qminmax Lqa Floats Lia.
From stdpp Require Import gmap strings list fin_maps pretty.

(** ** float64 *)

Class Float64 (F : Type) := {
  f_int : Z -> F;              (* float64(n) *)
  f_add : F -> F -> F;
  f_sub : F -> F -> F;
  f_mul : F -> F -> F;
  f_div : F -> F -> F;
  f_le  : F -> F -> bool;      (* x <= y *)
}.

Declare Scope f64_scope.
Delimit Scope f64_scope with f64.
Infix "+" := f_add : f64_scope.
Infix "-" := f_sub : f64_scope.
Infix "*" := f_mul : f64_scope.
Infix "/" := f_div : f64_scope.
Infix "<=?" := f_le : f64_scope.

(** IEEE 754 binary64. [f_int] is exact on the integers the program
    converts (seconds and nanoseconds of a Duration, small constants). *)
Definition float_of_Z (z : Z) : float :=
  if (z <? 0)%Z then PrimFloat.opp (PrimFloat.of_uint63 (Uint63.of_Z (- z)))
  else PrimFloat.of_uint63 (Uint63.of_Z z).

#[export] Instance binary64 : Float64 float := {|
  f_int := float_of_Z;
  f_add := PrimFloat.add;
  f_sub := PrimFloat.sub;
  f_mul := PrimFloat.mul;
  f_div := PrimFloat.div;
  f_le  := PrimFloat.leb;
|}.

(** Exact arithmetic. *)
#[export] Instance exact : Float64 Q := {|
  f_int := inject_Z;
  f_add := Qplus;
  f_sub := Qminus;
  f_mul := Qmult;
  f_div := Qdiv;
  f_le  := Qle_bool;
|}.

(** ** package time *)

Definition Time := Z.
Definition Duration := Z.
Bind Scope Z_scope with Time Duration.

Definition IsZero (t : Time) : bool := (t =? 0)%Z.

Definition minDuration : Duration := (- 2 ^ 63)%Z.
Definition maxDuration : Duration := (2 ^ 63 - 1)%Z.
Definition Second : Duration := 1000000000%Z.

(** [t.Sub(u)]: the difference, or the nearest Duration bound. *)
Definition Sub (t u : Time) : Duration :=
  if (t - u <? minDuration)%Z then minDuration
  else if (maxDuration <? t - u)%Z then maxDuration
  else (t - u)%Z.

(** [d.Seconds()]: [float64(d / Second) + float64(d % Second) / 1e9]. *)
Definition Seconds {F} `{Float64 F} (d : Duration) : F :=
  (f_int (Z.quot d Second) + f_int (Z.rem d Second) / f_int Second)%f64.

(** ** package order *)

Definition Temperature := string.
Definition Hot : Temperature := "hot".
Definition Cold : Temperature := "cold".
Definition Frozen : Temperature := "frozen".

Record Order {F : Type} := mkOrder {
  ID : string;
  Name : string;
  Temp : Temperature;
  ShelfLife : F;
  DecayRate : F;
  CreatedAt : Time;
  PlacedOnShelfAt : Time;
  PlacedOnOverflow : Time;
  CurrentShelfType : string;
  WastedAt : Time;
  DeliveredAt : Time;
}.
Arguments Order : clear implicits.
Arguments mkOrder {F}.

Section OrderFields.
Context {F : Type}.
Implicit Type o : Order F.

Definition set_PlacedOnShelfAt (t : Time) o : Order F :=
  mkOrder (ID o) (Name o) (Temp o) (ShelfLife o) (DecayRate o) (CreatedAt o)
          t (PlacedOnOverflow o) (CurrentShelfType o) (WastedAt o) (DeliveredAt o).
Definition set_PlacedOnOverflow (t : Time) o : Order F :=
  mkOrder (ID o) (Name o) (Temp o) (ShelfLife o) (DecayRate o) (CreatedAt o)
          (PlacedOnShelfAt o) t (CurrentShelfType o) (WastedAt o) (DeliveredAt o).
Definition set_CurrentShelfType (k : string) o : Order F :=
  mkOrder (ID o) (Name o) (Temp o) (ShelfLife o) (DecayRate o) (CreatedAt o)
          (PlacedOnShelfAt o) (PlacedOnOverflow o) k (WastedAt o) (DeliveredAt o).
Definition set_WastedAt (t : Time) o : Order F :=
  mkOrder (ID o) (Name o) (Temp o) (ShelfLife o) (DecayRate o) (CreatedAt o)
          (PlacedOnShelfAt o) (PlacedOnOverflow o) (CurrentShelfType o) t (DeliveredAt o).
Definition set_DeliveredAt (t : Time) o : Order F :=
  mkOrder (ID o) (Name o) (Temp o) (ShelfLife o) (DecayRate o) (CreatedAt o)
          (PlacedOnShelfAt o) (PlacedOnOverflow o) (CurrentShelfType o) (WastedAt o) t.
End OrderFields.

Section Decay.
Context {F : Type} `{Float64 F}.
Implicit Type o : Order F.
Local Open Scope f64_scope.

Definition CalculateValue o (now : Time) : F :=
  if IsZero (PlacedOnShelfAt o) then f_int 1
  else
    let decayAmount :=
      if IsZero (PlacedOnOverflow o) then
        let elapsedTime := Seconds (Sub now (PlacedOnShelfAt o)) in
        DecayRate o * elapsedTime
      else
        let elapsedTimePrimary := Seconds (Sub (PlacedOnOverflow o) (PlacedOnShelfAt o)) in
        let decayAmountPrimary := DecayRate o * elapsedTimePrimary in
        let elapsedTimeOverflow := Seconds (Sub now (PlacedOnOverflow o)) in
        let decayAmountOverflow := DecayRate o * elapsedTimeOverflow in
        decayAmountPrimary + decayAmountOverflow in
    let remainingShelfLife := ShelfLife o - decayAmount in
    if remainingShelfLife <=? f_int 0 then f_int 0
    else remainingShelfLife / ShelfLife o.

Definition CalculateValueV2 o (now : Time) : F :=
  if IsZero (PlacedOnShelfAt o) then f_int 1
  else
    let orderAge := Seconds (Sub now (PlacedOnShelfAt o)) in
    let shelfDecayModifier := f_int 1 in
    let '(orderAge, shelfDecayModifier) :=
      if negb (IsZero (PlacedOnOverflow o)) then
        let overflowAge := Seconds (Sub now (PlacedOnOverflow o)) in
        let primaryAge := Seconds (Sub (PlacedOnOverflow o) (PlacedOnShelfAt o)) in
        (primaryAge + overflowAge, f_int 2)
      else (orderAge, shelfDecayModifier) in
    let decayAmount := DecayRate o * orderAge * shelfDecayModifier in
    let remainingShelfLife := ShelfLife o - orderAge - decayAmount in
    if remainingShelfLife <=? f_int 0 then f_int 0
    else remainingShelfLife / ShelfLife o.

Definition IsExpired o (now : Time) : bool :=
  CalculateValue o now <=? f_int 0.
End Decay.

(** ** The world: the store of Order objects and the clock *)

Definition addr := nat.

Record World {F : Type} := mkWorld {
  store : addr -> Order F;     (* the Order object at each address *)
  clock : nat -> Time;         (* the n-th reading of time.Now() *)
  ticks : nat;                 (* readings taken so far *)
}.
Arguments World : clear implicits.
Arguments mkWorld {F}.

Definition M (F A : Type) := World F -> A * World F.

Section Monad.
Context {F : Type}.

Definition ret {A} (a : A) : M F A := fun w => (a, w).
Definition bind {A B} (c : M F A) (k : A -> M F B) : M F B :=
  fun w => let (a, w') := c w in k a w'.

(** [time.Now()] *)
Definition time_Now : M F Time :=
  fun w => (clock w (ticks w), mkWorld (store w) (clock w) (S (ticks w))).

(** [*order] *)
Definition deref (order : addr) : M F (Order F) :=
  fun w => (store w order, w).

(** [order.field = v], as an update [f] of the object at [order] *)
Definition assign (order : addr) (f : Order F -> Order F) : M F unit :=
  fun w => (tt, mkWorld (fun a => if Nat.eqb a order then f (store w a) else store w a)
                        (clock w) (ticks w)).

Definition when (b : bool) (c : M F unit) : M F unit :=
  if b then c else ret tt.
End Monad.

Notation "'let*' x := c 'in' k" := (bind c (fun x => k))
  (at level 10, x binder, k at level 200).
Notation "c ;;; k" := (bind c (fun _ => k))
  (at level 100, right associativity).

(** [unfold_M] exposes the state passing of a monadic term. *)
Ltac unfold_M := unfold bind, ret, deref, assign, time_Now, when in *.

(** ** package order: NewOrder *)

(** [int64(z)]: two's complement wrap-around. *)
Definition wrap64 (z : Z) : Z := ((z + 2 ^ 63) mod 2 ^ 64 - 2 ^ 63)%Z.

(** 1 January 1970 UTC, in nanoseconds since the zero Time. *)
Definition unixEpoch : Time := 62135596800000000000%Z.

(** [t.UnixNano()]; Go computes it in int64. *)
Definition UnixNano (t : Time) : Z := wrap64 (t - unixEpoch).

(** [NewOrder]: the fields of the new object. Go evaluates the fields of
    the literal in order, so the reading for the ID is taken before the
    one for CreatedAt. [%d] of an int64 is [pretty]. *)
Definition NewOrder {F : Type} `{Float64 F} (name : string) (temp : Temperature)
  (shelfLife decayRate : F) : M F (Order F) :=
  let* t := time_Now in
  let* createdAt := time_Now in
  ret (mkOrder (name +:+ "-" +:+ pretty (UnixNano t)) name temp shelfLife decayRate
               createdAt 0 0 "" 0 0).

(** ** package shelf: Shelf *)

Definition ShelfType := string.
Definition HotShelf : ShelfType := "hot".
Definition ColdShelf : ShelfType := "cold".
Definition FrozenShelf : ShelfType := "frozen".
Definition OverflowShelf : ShelfType := "overflow".

Record ShelfStats := mkStats {
  OrdersAdded : Z;
  OrdersRemoved : Z;
  OrdersWasted : Z;
  OrdersDelivered : Z;
  PeakUsage : Z;
}.

Record Shelf := mkShelf {
  Type_ : ShelfType;
  Capacity : Z;
  stats : ShelfStats;
  Orders : gmap string addr;
}.

Definition NewShelf (shelfType : ShelfType) (capacity : Z) : Shelf :=
  mkShelf shelfType capacity (mkStats 0 0 0 0 0) ∅.

(** [len(s.Orders)] *)
Definition len (m : gmap string addr) : Z := Z.of_nat (size m).

Definition Size (s : Shelf) : Z := len (Orders s).
Definition IsFull (s : Shelf) : bool := (Capacity s <=? len (Orders s))%Z.
Definition GetStats (s : Shelf) : ShelfStats := stats s.
Definition GetOrder (s : Shelf) (orderID : string) : option addr := Orders s !! orderID.
Definition GetAllOrders (s : Shelf) : list addr := (map_to_list (Orders s)).*2.

Section ShelfOps.
Context {F : Type} `{Float64 F}.

Definition MarkOrderDelivered (s : Shelf) (orderID : string) : M F (bool * Shelf) :=
  match Orders s !! orderID with
  | None => ret (false, s)
  | Some order =>
      let* now := time_Now in
      assign order (set_DeliveredAt now) ;;;
      let st := stats s in
      ret (true,
           mkShelf (Type_ s) (Capacity s)
             (mkStats (OrdersAdded st) (OrdersRemoved st + 1) (OrdersWasted st)
                      (OrdersDelivered st + 1) (PeakUsage st))
             (delete orderID (Orders s)))
  end.

(** One iteration of the loop of RemoveExpiredOrders; the loop state is
    the shelf and [expiredCount]. *)
Definition sweep_entry (now : Time) (entry : string * addr) (acc : Z * Shelf)
  : M F (Z * Shelf) :=
  let '(id, order) := entry in
  let '(expiredCount, s) := acc in
  let* o := deref order in
  if IsExpired o now then
    assign order (set_WastedAt now) ;;;
    let st := stats s in
    ret ((expiredCount + 1)%Z,
         mkShelf (Type_ s) (Capacity s)
           (mkStats (OrdersAdded st) (OrdersRemoved st) (OrdersWasted st + 1)
                    (OrdersDelivered st) (PeakUsage st))
           (delete id (Orders s)))
  else ret acc.

Fixpoint range (entries : list (string * addr)) (now : Time) (acc : Z * Shelf)
  : M F (Z * Shelf) :=
  match entries with
  | [] => ret acc
  | e :: rest => let* acc' := sweep_entry now e acc in range rest now acc'
  end.

(** The entries are visited in the order of [map_to_list]; Go leaves the
    order open, and [range_any_order] below shows it does not matter. *)
Definition RemoveExpiredOrders (s : Shelf) : M F (Z * Shelf) :=
  let* now := time_Now in
  range (map_to_list (Orders s)) now (0%Z, s).

Definition RemoveOrder (s : Shelf) (orderID : string) : M F (option addr * Shelf) :=
  match Orders s !! orderID with
  | None => ret (None, s)
  | Some order =>
      let st := stats s in
      ret (Some order,
           mkShelf (Type_ s) (Capacity s)
             (mkStats (OrdersAdded st) (OrdersRemoved st + 1) (OrdersWasted st)
                      (OrdersDelivered st) (PeakUsage st))
             (delete orderID (Orders s)))
  end.

Definition AddOrder (s : Shelf) (order : addr) : M F (bool * Shelf) :=
  if (Capacity s <=? len (Orders s))%Z then ret (false, s)
  else
    let* o := deref order in
    when (IsZero (PlacedOnShelfAt o))
         (let* now := time_Now in assign order (set_PlacedOnShelfAt now)) ;;;
    assign order (set_CurrentShelfType (Type_ s)) ;;;
    when (String.eqb (Type_ s) OverflowShelf)
         (let* o := deref order in
          when (IsZero (PlacedOnOverflow o))
               (let* now := time_Now in assign order (set_PlacedOnOverflow now))) ;;;
    let* o := deref order in
    let orders := <[ID o := order]> (Orders s) in
    let st := stats s in
    let peak := if (PeakUsage st <? len orders)%Z then len orders else PeakUsage st in
    ret (true,
         mkShelf (Type_ s) (Capacity s)
           (mkStats (OrdersAdded st + 1) (OrdersRemoved st) (OrdersWasted st)
                    (OrdersDelivered st) peak)
           orders).
End ShelfOps.

(** ** package shelf: ShelfManager

    Go keeps the constant [HotShelf] and the field [sm.HotShelf] apart, and
    gives Shelf and ShelfManager methods of one name; here the fields and
    the methods of the manager carry the prefix [sm_]. *)

Record ShelfManager := mkManager {
  sm_HotShelf : Shelf;
  sm_ColdShelf : Shelf;
  sm_FrozenShelf : Shelf;
  sm_OverflowShelf : Shelf;
  TotalOrdersReceived : Z;
  TotalOrdersDelivered : Z;
  TotalOrdersExpired : Z;
  TotalOrdersWasted : Z;
}.

(** A [*Shelf] of the manager is the field it is stored in. *)
Inductive ShelfRef := hotShelf | coldShelf | frozenShelf | overflowShelf.

Definition shelf_at (sm : ShelfManager) (r : ShelfRef) : Shelf :=
  match r with
  | hotShelf => sm_HotShelf sm
  | coldShelf => sm_ColdShelf sm
  | frozenShelf => sm_FrozenShelf sm
  | overflowShelf => sm_OverflowShelf sm
  end.

Definition set_shelf (sm : ShelfManager) (r : ShelfRef) (s : Shelf) : ShelfManager :=
  let h := if r is hotShelf then s else sm_HotShelf sm in
  let c := if r is coldShelf then s else sm_ColdShelf sm in
  let f := if r is frozenShelf then s else sm_FrozenShelf sm in
  let v := if r is overflowShelf then s else sm_OverflowShelf sm in
  mkManager h c f v (TotalOrdersReceived sm) (TotalOrdersDelivered sm)
            (TotalOrdersExpired sm) (TotalOrdersWasted sm).

Definition incr_Received (sm : ShelfManager) : ShelfManager :=
  mkManager (sm_HotShelf sm) (sm_ColdShelf sm) (sm_FrozenShelf sm) (sm_OverflowShelf sm)
            (TotalOrdersReceived sm + 1) (TotalOrdersDelivered sm)
            (TotalOrdersExpired sm) (TotalOrdersWasted sm).
Definition incr_Delivered (sm : ShelfManager) : ShelfManager :=
  mkManager (sm_HotShelf sm) (sm_ColdShelf sm) (sm_FrozenShelf sm) (sm_OverflowShelf sm)
            (TotalOrdersReceived sm) (TotalOrdersDelivered sm + 1)
            (TotalOrdersExpired sm) (TotalOrdersWasted sm).
Definition add_Expired (n : Z) (sm : ShelfManager) : ShelfManager :=
  mkManager (sm_HotShelf sm) (sm_ColdShelf sm) (sm_FrozenShelf sm) (sm_OverflowShelf sm)
            (TotalOrdersReceived sm) (TotalOrdersDelivered sm)
            (TotalOrdersExpired sm + n) (TotalOrdersWasted sm).
Definition incr_Wasted (sm : ShelfManager) : ShelfManager :=
  mkManager (sm_HotShelf sm) (sm_ColdShelf sm) (sm_FrozenShelf sm) (sm_OverflowShelf sm)
            (TotalOrdersReceived sm) (TotalOrdersDelivered sm)
            (TotalOrdersExpired sm) (TotalOrdersWasted sm + 1).

Definition NewShelfManager (hotCapacity coldCapacity frozenCapacity overflowCapacity : Z)
  : ShelfManager :=
  mkManager (NewShelf HotShelf hotCapacity) (NewShelf ColdShelf coldCapacity)
            (NewShelf FrozenShelf frozenCapacity) (NewShelf OverflowShelf overflowCapacity)
            0 0 0 0.

(** [nil] is [None]. *)
Definition GetShelfForTemperature (temp : Temperature) : option ShelfRef :=
  if String.eqb temp Hot then Some hotShelf
  else if String.eqb temp Cold then Some coldShelf
  else if String.eqb temp Frozen then Some frozenShelf
  else None.

Section ManagerOps.
Context {F : Type} `{Float64 F}.

Definition PlaceOrder (sm : ShelfManager) (order : addr) : M F (bool * ShelfManager) :=
  let sm := incr_Received sm in
  let* o := deref order in
  match GetShelfForTemperature (Temp o) with
  | None => ret (false, incr_Wasted sm)
  | Some primaryShelf =>
      let* '(added, s) := AddOrder (shelf_at sm primaryShelf) order in
      let sm := set_shelf sm primaryShelf s in
      if added then ret (true, sm)
      else
        let* '(added, s) := AddOrder (sm_OverflowShelf sm) order in
        let sm := set_shelf sm overflowShelf s in
        if added then
          let* now := time_Now in
          assign order (set_PlacedOnOverflow now) ;;;
          ret (true, sm)
        else
          let sm := incr_Wasted sm in
          let* now := time_Now in
          assign order (set_WastedAt now) ;;;
          ret (false, sm)
  end.

Definition deliverFromShelf (sm : ShelfManager) (shelf : ShelfRef) (orderID : string)
  : M F (bool * ShelfManager) :=
  match GetOrder (shelf_at sm shelf) orderID with
  | Some _ =>
      let* '(ok, s) := MarkOrderDelivered (shelf_at sm shelf) orderID in
      ret (ok, set_shelf sm shelf s)
  | None => ret (false, sm)
  end.

(** [a || b] on calls that change the manager: [b] runs only if [a] is false. *)
Definition orElse (sm : ShelfManager) (a : M F (bool * ShelfManager))
           (b : ShelfManager -> M F (bool * ShelfManager)) : M F (bool * ShelfManager) :=
  let* '(ok, sm') := a in if ok then ret (true, sm') else b sm'.

Definition DeliverOrder (sm : ShelfManager) (orderID : string) : M F (bool * ShelfManager) :=
  let* '(found, sm) :=
     orElse sm (deliverFromShelf sm hotShelf orderID) (fun sm =>
     orElse sm (deliverFromShelf sm coldShelf orderID) (fun sm =>
     orElse sm (deliverFromShelf sm frozenShelf orderID) (fun sm =>
     deliverFromShelf sm overflowShelf orderID))) in
  if found then ret (true, incr_Delivered sm) else ret (false, sm).

Definition sm_RemoveExpiredOrders (sm : ShelfManager) : M F (Z * ShelfManager) :=
  let expiredCount := 0%Z in
  let* '(n, s) := RemoveExpiredOrders (sm_HotShelf sm) in
  let sm := set_shelf sm hotShelf s in
  let expiredCount := (expiredCount + n)%Z in
  let* '(n, s) := RemoveExpiredOrders (sm_ColdShelf sm) in
  let sm := set_shelf sm coldShelf s in
  let expiredCount := (expiredCount + n)%Z in
  let* '(n, s) := RemoveExpiredOrders (sm_FrozenShelf sm) in
  let sm := set_shelf sm frozenShelf s in
  let expiredCount := (expiredCount + n)%Z in
  let* '(n, s) := RemoveExpiredOrders (sm_OverflowShelf sm) in
  let sm := set_shelf sm overflowShelf s in
  let expiredCount := (expiredCount + n)%Z in
  ret (expiredCount, add_Expired expiredCount sm).

Definition sm_GetAllOrders (sm : ShelfManager) : list addr :=
  GetAllOrders (sm_HotShelf sm) ++ GetAllOrders (sm_ColdShelf sm) ++
  GetAllOrders (sm_FrozenShelf sm) ++ GetAllOrders (sm_OverflowShelf sm).
End ManagerOps.

(** The sum of the four shelves' occupancies. *)
Definition occupancy (sm : ShelfManager) : Z :=
  (Size (sm_HotShelf sm) + Size (sm_ColdShelf sm) +
   Size (sm_FrozenShelf sm) + Size (sm_OverflowShelf sm))%Z.

(** ** Runs of operations *)

Inductive Op :=
| OpPlace (order : addr)
| OpDeliver (orderID : string)
| OpSweep.

Inductive ShelfOp :=
| SAdd (order : addr)
| SRemove (orderID : string)
| SDeliver (orderID : string)
| SSweep.

Section Runs.
Context {F : Type} `{Float64 F}.

Definition step (sm : ShelfManager) (op : Op) : M F ShelfManager :=
  match op with
  | OpPlace order => let* '(_, sm') := PlaceOrder sm order in ret sm'
  | OpDeliver orderID => let* '(_, sm') := DeliverOrder sm orderID in ret sm'
  | OpSweep => let* '(_, sm') := sm_RemoveExpiredOrders sm in ret sm'
  end.

Fixpoint run (sm : ShelfManager) (ops : list Op) : M F ShelfManager :=
  match ops with
  | [] => ret sm
  | op :: rest => let* sm' := step sm op in run sm' rest
  end.

(** A shelf operation, with whether it was a successful RemoveOrder or
    MarkOrderDelivered. *)
Definition shelf_step (s : Shelf) (op : ShelfOp) : M F (bool * Shelf) :=
  match op with
  | SAdd order => let* '(_, s') := AddOrder s order in ret (false, s')
  | SRemove orderID => let* '(r, s') := RemoveOrder s orderID in ret (bool_decide (is_Some r), s')
  | SDeliver orderID => MarkOrderDelivered s orderID
  | SSweep => let* '(_, s') := RemoveExpiredOrders s in ret (false, s')
  end.

(** The run of [ops] on a shelf, counting those removals. *)
Fixpoint shelf_run (s : Shelf) (ops : list ShelfOp) (removals : Z) : M F (Z * Shelf) :=
  match ops with
  | [] => ret (removals, s)
  | op :: rest =>
      let* '(r, s') := shelf_step s op in
      shelf_run s' rest (if r then removals + 1 else removals)%Z
  end.
End Runs.

Fixpoint add_all {F : Type} `{Float64 F} (s : Shelf) (orders : list addr)
  : M F (list bool * Shelf) :=
  match orders with
  | [] => ret ([], s)
  | order :: rest =>
      let* '(added, s') := AddOrder s order in
      let* '(results, s'') := add_all s' rest in
      ret (added :: results, s'')
  end.

(** ** Vocabulary of the statements *)

(** A Duration that [Sub] returns as it is. *)
Definition in_range (d : Z) : Prop := (minDuration <= d <= maxDuration)%Z.

(** The seconds from [u] to [t], as a rational. *)
Definition elapsed (t u : Time) : Q := inject_Z (t - u) / inject_Z Second.

(** max(0, x) *)
Definition f_max0 {F : Type} `{Float64 F} (x : F) : F :=
  if (x <=? f_int 0)%f64 then f_int 0 else x.

(** The value as section 4.1 of the specification words it, segment by
    segment: 1 before placement; max(0, L - R*(now - placed)) / L on the
    primary shelf; max(0, L - (R*(overflow - placed) + R*(now - overflow))) / L
    once the order has touched overflow. *)
Definition segment_value {F : Type} `{Float64 F} (o : Order F) (now : Time) : F :=
  if IsZero (PlacedOnShelfAt o) then f_int 1
  else if IsZero (PlacedOnOverflow o) then
    (f_max0 (ShelfLife o - DecayRate o * Seconds (Sub now (PlacedOnShelfAt o)))
     / ShelfLife o)%f64
  else
    (f_max0 (ShelfLife o -
             (DecayRate o * Seconds (Sub (PlacedOnOverflow o) (PlacedOnShelfAt o)) +
              DecayRate o * Seconds (Sub now (PlacedOnOverflow o))))
     / ShelfLife o)%f64.

(** The single-rate value of the specification: 1 before placement, then
    max(0, L - R * elapsed) / L. *)
Definition canonical_value (o : Order Q) (now : Time) : Q :=
  if IsZero (PlacedOnShelfAt o) then 1
  else Qmax 0 (ShelfLife o - DecayRate o * elapsed now (PlacedOnShelfAt o)) / ShelfLife o.

(** The single-rate value once more, computed from [now - placed] in the
    arithmetic of [F]: in float64 when [F] is. *)
Definition single_rate_value {F : Type} `{Float64 F} (o : Order F) (now : Time) : F :=
  if IsZero (PlacedOnShelfAt o) then f_int 1
  else (f_max0 (ShelfLife o - DecayRate o * Seconds (Sub now (PlacedOnShelfAt o)))
        / ShelfLife o)%f64.

(** The differences of instants that CalculateValue takes fit a Duration. *)
Definition no_saturation (o : Order Q) (now : Time) : Prop :=
  if IsZero (PlacedOnShelfAt o) then True
  else if IsZero (PlacedOnOverflow o)
  then in_range (now - PlacedOnShelfAt o)
  else in_range (PlacedOnOverflow o - PlacedOnShelfAt o) /\
       in_range (now - PlacedOnOverflow o).

(** The decay amount that CalculateValue subtracts. *)
Definition decay (o : Order Q) (now : Time) : Q :=
  if IsZero (PlacedOnOverflow o)
  then DecayRate o * Seconds (Sub now (PlacedOnShelfAt o))
  else DecayRate o * Seconds (Sub (PlacedOnOverflow o) (PlacedOnShelfAt o)) +
       DecayRate o * Seconds (Sub now (PlacedOnOverflow o)).

(** The manager searches and sweeps its shelves in this order. *)
Definition index (r : ShelfRef) : nat :=
  match r with hotShelf => 0 | coldShelf => 1 | frozenShelf => 2 | overflowShelf => 3 end.

(** The reading of the clock that the sweep of shelf [r] takes, when the
    manager's sweep starts in world [w]. *)
Definition snapshot {F : Type} (w : World F) (r : ShelfRef) : Time :=
  clock w (ticks w + index r).

(** The order at [a] is on shelf [s] and expired at [now]. *)
Definition expired_on {F : Type} `{Float64 F} (s : Shelf) (w : World F) (now : Time)
  (a : addr) : bool :=
  existsb (fun e => Nat.eqb e.2 a && IsExpired (store w e.2) now) (map_to_list (Orders s)).

(** What a pass of the sweep loop over [l] deletes, marks and counts, for
    an expiry test [ex] on addresses. *)
Definition expired_key (ex : addr -> bool) (l : list (string * addr)) (id : string) : bool :=
  existsb (fun e => String.eqb e.1 id && ex e.2) l.

Definition expired_addr (ex : addr -> bool) (l : list (string * addr)) (a : addr) : bool :=
  existsb (fun e => Nat.eqb e.2 a && ex e.2) l.

Fixpoint expired_count (ex : addr -> bool) (l : list (string * addr)) : Z :=
  match l with
  | [] => 0
  | e :: l => (if ex e.2 then 1 else 0) + expired_count ex l
  end%Z.

(** The reconciliation equation of the manager's counters. *)
Definition reconciled (sm : ShelfManager) : Prop :=
  TotalOrdersReceived sm =
  (TotalOrdersDelivered sm + TotalOrdersWasted sm + TotalOrdersExpired sm + occupancy sm)%Z.

(** The identifier is a key of one of the four shelves. *)
Definition resident (sm : ShelfManager) (id : string) : bool :=
  bool_decide (is_Some (Orders (sm_HotShelf sm) !! id)) ||
  bool_decide (is_Some (Orders (sm_ColdShelf sm) !! id)) ||
  bool_decide (is_Some (Orders (sm_FrozenShelf sm) !! id)) ||
  bool_decide (is_Some (Orders (sm_OverflowShelf sm) !! id)).

(** Along the run of [ops], every PlaceOrder is given an order whose
    identifier is on no shelf at that moment. *)
Fixpoint fresh_placements {F : Type} `{Float64 F} (sm : ShelfManager) (ops : list Op)
  (w : World F) : Prop :=
  match ops with
  | [] => True
  | op :: rest =>
      (if op is OpPlace order then resident sm (ID (store w order)) = false else True) /\
      fresh_placements (step sm op w).1 rest (step sm op w).2
  end.

(** [now] is not before the placements of the order. *)
Definition after_placement (o : Order Q) (now : Time) : Prop :=
  if IsZero (PlacedOnOverflow o) then (PlacedOnShelfAt o <= now)%Z
  else (PlacedOnShelfAt o <= PlacedOnOverflow o <= now)%Z.

(** What the statistics of a shelf say of one another and of the shelf. *)
Definition stats_consistent (s : Shelf) : Prop :=
  (0 <= Size s <= PeakUsage (stats s))%Z /\
  (PeakUsage (stats s) <= OrdersAdded (stats s))%Z /\
  (PeakUsage (stats s) <= Capacity s)%Z /\
  (Size s + OrdersRemoved (stats s) + OrdersWasted (stats s) <= OrdersAdded (stats s))%Z /\
  (0 <= OrdersDelivered (stats s) <= OrdersRemoved (stats s))%Z /\
  (0 <= OrdersWasted (stats s))%Z.

(** The type NewShelfManager gives each of its shelves. *)
Definition shelf_type (r : ShelfRef) : ShelfType :=
  match r with
  | hotShelf => HotShelf
  | coldShelf => ColdShelf
  | frozenShelf => FrozenShelf
  | overflowShelf => OverflowShelf
  end.

(** A statistic, summed over the four shelves. *)
Definition sum_stats (f : ShelfStats -> Z) (sm : ShelfManager) : Z :=
  (f (stats (sm_HotShelf sm)) + f (stats (sm_ColdShelf sm)) +
   f (stats (sm_FrozenShelf sm)) + f (stats (sm_OverflowShelf sm)))%Z.

(** The number of PlaceOrder calls of a run. *)
Fixpoint placements (ops : list Op) : Z :=
  match ops with
  | [] => 0
  | OpPlace _ :: rest => 1 + placements rest
  | _ :: rest => placements rest
  end%Z.

(** The manager's counters against the statistics of its shelves. *)
Definition counters_agree (sm : ShelfManager) : Prop :=
  sum_stats OrdersAdded sm = (TotalOrdersReceived sm - TotalOrdersWasted sm)%Z /\
  sum_stats OrdersRemoved sm = TotalOrdersDelivered sm /\
  sum_stats OrdersDelivered sm = TotalOrdersDelivered sm /\
  sum_stats OrdersWasted sm = TotalOrdersExpired sm /\
  (0 <= TotalOrdersWasted sm)%Z.

(** Every entry of a shelf has the ID of its order for key; the order sits
    on the shelf of its temperature or on overflow, and its CurrentShelfType
    names its temperature or overflow. *)
Definition keyed_by_ID {F : Type} (sm : ShelfManager) (w : World F) : Prop :=
  forall r id a, GetOrder (shelf_at sm r) id = Some a ->
    ID (store w a) = id /\
    (exists p, GetShelfForTemperature (Temp (store w a)) = Some p /\
               (r = p \/ r = overflowShelf)) /\
    (CurrentShelfType (store w a) = Temp (store w a) \/
     CurrentShelfType (store w a) = OverflowShelf).

(** Every order on a shelf has its placement time, and every order on the
    overflow shelf its overflow-placement time. *)
Definition placement_stamped {F : Type} (sm : ShelfManager) (w : World F) : Prop :=
  forall r id a, GetOrder (shelf_at sm r) id = Some a ->
    IsZero (PlacedOnShelfAt (store w a)) = false /\
    (r = overflowShelf -> IsZero (PlacedOnOverflow (store w a)) = false).

(** What every call of the manager keeps, for shelves of capacities [cap]
    and a clock [clk]. *)
Definition manager_inv {F : Type} (cap : ShelfRef -> Z) (clk : nat -> Time)
  (sm : ShelfManager) (w : World F) : Prop :=
  (forall r, Type_ (shelf_at sm r) = shelf_type r /\ Capacity (shelf_at sm r) = cap r /\
             stats_consistent (shelf_at sm r)) /\
  counters_agree sm /\ keyed_by_ID sm w /\ clock w = clk /\
  ((forall n, IsZero (clk n) = false) -> placement_stamped sm w).

(** ** Test data, after the repository's tests *)

Definition sec (n : Z) : Duration := (n * Second)%Z.

(** An instant of the year 2026. *)
Definition T0 : Time := 63900000000000000000%Z.

(** [TestCalculateValue]: shelf life 300, decay rate 0.5, placed at T0. *)
Definition pizza {F : Type} `{Float64 F} : Order F :=
  mkOrder "Pizza-1" "Pizza" Hot (f_int 300) (f_int 1 / f_int 2)%f64 T0 T0 0 "hot" 0 0.

(** [TestCalculateValue_OverflowShelf]: moved to overflow after 50 s. *)
Definition fries {F : Type} `{Float64 F} : Order F :=
  mkOrder "Fries-1" "Fries" Hot (f_int 300) (f_int 1 / f_int 2)%f64 T0 T0 (T0 + sec 50)
          "overflow" 0 0.


(** Shelf life 3 and decay rate 3/10 (in float64, the number nearest to
    0.3), moved to overflow after 1 s; and the same order left on its
    primary shelf. *)
Definition custard {F : Type} `{Float64 F} : Order F :=
  mkOrder "Custard-1" "Custard" Cold (f_int 3) (f_int 3 / f_int 10)%f64 T0 T0 (T0 + sec 1)
          "overflow" 0 0.

Definition custard_primary {F : Type} `{Float64 F} : Order F :=
  mkOrder "Custard-1" "Custard" Cold (f_int 3) (f_int 3 / f_int 10)%f64 T0 T0 0
          "cold" 0 0.

(** An order of shelf life 0. *)
Definition stale {F : Type} `{Float64 F} : Order F :=
  mkOrder "Bread-1" "Bread" Hot (f_int 0) (f_int 1) T0 T0 0 "hot" 0 0.


Definition test_order {F : Type} `{Float64 F} (id : string) (temp : Temperature) : Order F :=
  mkOrder id id temp (f_int 300) (f_int 1 / f_int 2)%f64 T0 0 0 "" 0 0.

(** The orders of [TestShelfManager_PlaceOrder], one of temperature
    "invalid" as in [TestShelfManager_GetShelfForTemperature], and the soup
    of [TestShelf_RemoveExpiredOrders]: shelf life 1, decay rate 1, placed
    5 s before T0. *)
Definition kitchen_store {F : Type} `{Float64 F} (a : addr) : Order F :=
  match a with
  | 1 => test_order "1" Hot
  | 2 => test_order "2" Cold
  | 3 => test_order "3" Frozen
  | 4 => test_order "4" Hot
  | 5 => test_order "5" Hot
  | 6 => test_order "6" Hot
  | 7 => test_order "7" "invalid"
  | 8 => mkOrder "ExpiredSoup-1" "ExpiredSoup" Hot (f_int 1) (f_int 1) T0 (T0 - sec 5) 0
                 "" 0 0
  | _ => test_order "0" Hot
  end.

(** A world whose clock advances one second per reading. *)
Definition kitchen {F : Type} `{Float64 F} : World F :=
  mkWorld kitchen_store (fun n => (T0 + sec (Z.of_nat n))%Z) 0.

(** * Theorems *)

(** ** Time and exact arithmetic *)

Lemma Sub_in_range (t u : Time) : in_range (t - u) -> Sub t u = (t - u)%Z.
Proof.
  unfold in_range, Sub. intros [Hl Hu].
  destruct (Z.ltb_spec (t - u) minDuration); [lia|].
  destruct (Z.ltb_spec maxDuration (t - u)); [lia|]. reflexivity.
Qed.

Lemma Sub_mono (t1 t2 u : Time) : (t1 <= t2)%Z -> (Sub t1 u <= Sub t2 u)%Z.
Proof.
  unfold Sub. intros.
  destruct (Z.ltb_spec (t1 - u) minDuration), (Z.ltb_spec (t2 - u) minDuration),
    (Z.ltb_spec maxDuration (t1 - u)), (Z.ltb_spec maxDuration (t2 - u));
    unfold minDuration, maxDuration in *; lia.
Qed.

Lemma Seconds_exact (d : Duration) :
  (Seconds (F:=Q) d == inject_Z d / inject_Z Second)%Q.
Proof.
  unfold Seconds; simpl.
  rewrite (Z.quot_rem' d Second) at 3.
  rewrite inject_Z_plus, inject_Z_mult. field. discriminate.
Qed.

Lemma Seconds_mono (d1 d2 : Duration) :
  (d1 <= d2)%Z -> (Seconds (F:=Q) d1 <= Seconds d2)%Q.
Proof.
  intros. rewrite !Seconds_exact. unfold Qdiv.
  apply Qmult_le_compat_r; [by rewrite <- Zle_Qle | discriminate].
Qed.

Lemma elapsed_split (t u v : Time) : (elapsed u v + elapsed t u == elapsed t v)%Q.
Proof.
  unfold elapsed. replace (t - v)%Z with ((u - v) + (t - u))%Z by lia.
  rewrite inject_Z_plus. field. discriminate.
Qed.

(** The last two statements of CalculateValue and of CalculateValueV2. *)
Lemma value_of_remaining (L r : Q) :
  ((if Qle_bool r 0 then 0 else r / L) == Qmax 0 r / L)%Q.
Proof.
  destruct (Qle_bool r 0) eqn:E.
  - apply Qle_bool_iff in E. rewrite (Q.max_l 0 r E). unfold Qdiv. ring.
  - assert (0 <= r)%Q.
    { destruct (Qlt_le_dec 0 r) as [Hl|Hl]; [lra|]. apply Qle_bool_iff in Hl. congruence. }
    rewrite (Q.max_r 0 r) by assumption. reflexivity.
Qed.

(** ** Order: the value and its expiry *)

Lemma CalculateValue_unplaced {F : Type} `{Float64 F} (o : Order F) (now : Time) :
  IsZero (PlacedOnShelfAt o) = true -> CalculateValue o now = f_int 1.
Proof. intros Hp. unfold CalculateValue. by rewrite Hp. Qed.

Lemma CalculateValue_placed (o : Order Q) (now : Time) :
  IsZero (PlacedOnShelfAt o) = false ->
  (CalculateValue o now == Qmax 0 (ShelfLife o - decay o now) / ShelfLife o)%Q.
Proof.
  intros Hp. unfold CalculateValue, decay. rewrite Hp. cbv zeta.
  destruct (IsZero (PlacedOnOverflow o)); apply value_of_remaining.
Qed.

(** In binary64, 0 / L is 0 for a positive L (finite or not). *)
Lemma binary64_zero_div (L : float) :
  PrimFloat.ltb 0 L = true -> PrimFloat.div 0 L = 0%float.
Proof.
  intros HL. rewrite ltb_spec in HL.
  rewrite <- (SF2Prim_Prim2SF (PrimFloat.div 0 L)), div_spec.
  change (Prim2SF 0) with (S754_zero false) in *.
  destruct (Prim2SF L) as [s|s| |s m e]; simpl in *; try discriminate;
    destruct s; try discriminate; reflexivity.
Qed.

(** In float64, bit for bit: the value of an order of positive shelf life
    is the segment-wise value of the specification. *)
Lemma CalculateValue_binary64 (o : Order float) (now : Time) :
  PrimFloat.ltb 0 (ShelfLife o) = true ->
  CalculateValue o now = segment_value o now.
Proof.
  intros HL. unfold CalculateValue, segment_value, f_max0.
  destruct (IsZero (PlacedOnShelfAt o)); [reflexivity|]. cbv zeta.
  destruct (IsZero (PlacedOnOverflow o));
    (destruct (_ <=? _)%f64; [|reflexivity]);
    change (f_int 0) with 0%float; simpl f_div; by rewrite binary64_zero_div.
Qed.

(** C1 (as amended): for an order never placed CalculateValue is 1,
    exactly 1.0 in float64. In float64, for a positive shelf life L, it is
    bit for bit max(0, L - R*(now - placed)) / L, the single-rate value,
    as long as the order has not touched overflow, and max(0, L - decay) / L
    with the decay amount R*(overflow - placed) + R*(now - overflow) once
    it has. In exact arithmetic, for a shelf life other than 0 and
    instants that a Duration can tell apart, that sum is R*(now - placed),
    so that the value is max(0, L - R*(now - placed)) / L in all cases. *)
Theorem CalculateValue_canonical :
  (forall (F : Type) (A : Float64 F) (o : Order F) (now : Time),
     IsZero (PlacedOnShelfAt o) = true -> CalculateValue o now = f_int 1) /\
  (forall (o : Order float) (now : Time),
     PrimFloat.ltb 0 (ShelfLife o) = true ->
     CalculateValue o now = segment_value o now /\
     (IsZero (PlacedOnOverflow o) = true ->
      CalculateValue o now = single_rate_value o now)) /\
  (forall (o : Order Q) (now : Time),
     ~ ShelfLife o == 0 -> no_saturation o now ->
     CalculateValue o now == canonical_value o now /\
     (IsZero (PlacedOnShelfAt o) = false -> IsZero (PlacedOnOverflow o) = true ->
        CalculateValue o now ==
        Qmax 0 (ShelfLife o - DecayRate o * elapsed now (PlacedOnShelfAt o)) / ShelfLife o) /\
     (IsZero (PlacedOnShelfAt o) = false -> IsZero (PlacedOnOverflow o) = false ->
        decay o now ==
          DecayRate o * elapsed (PlacedOnOverflow o) (PlacedOnShelfAt o) +
          DecayRate o * elapsed now (PlacedOnOverflow o) /\
        CalculateValue o now ==
        Qmax 0 (ShelfLife o -
                (DecayRate o * elapsed (PlacedOnOverflow o) (PlacedOnShelfAt o) +
                 DecayRate o * elapsed now (PlacedOnOverflow o))) / ShelfLife o /\
        CalculateValue o now ==
        Qmax 0 (ShelfLife o - DecayRate o * elapsed now (PlacedOnShelfAt o)) / ShelfLife o))%Q.
Proof.
  split; [intros F A o now; apply CalculateValue_unplaced|].
  split.
  { intros o now HL. split; [by apply CalculateValue_binary64|].
    intros Ho. rewrite (CalculateValue_binary64 o now HL).
    unfold segment_value, single_rate_value. by rewrite Ho. }
  intros o now _ Hsat. unfold no_saturation, canonical_value in *.
  destruct (IsZero (PlacedOnShelfAt o)) eqn:Hp.
  { rewrite (CalculateValue_unplaced o now Hp). repeat split; try discriminate. }
  pose proof (CalculateValue_placed o now Hp) as Hcv. unfold decay in *.
  destruct (IsZero (PlacedOnOverflow o)) eqn:Ho.
  - rewrite (Sub_in_range _ _ Hsat), Seconds_exact in Hcv.
    fold (elapsed now (PlacedOnShelfAt o)) in Hcv.
    repeat split; intros; try discriminate; exact Hcv.
  - destruct Hsat as [H1 H2].
    rewrite (Sub_in_range _ _ H1), (Sub_in_range _ _ H2), !Seconds_exact in *.
    fold (elapsed now (PlacedOnOverflow o))
         (elapsed (PlacedOnOverflow o) (PlacedOnShelfAt o)) in *.
    assert (Hsingle :
      (CalculateValue o now ==
       Qmax 0 (ShelfLife o - DecayRate o * elapsed now (PlacedOnShelfAt o)) / ShelfLife o)%Q).
    { rewrite Hcv, <- (elapsed_split now (PlacedOnOverflow o) (PlacedOnShelfAt o)).
      by rewrite Qmult_plus_distr_r. }
    repeat split; intros; try discriminate; assumption || reflexivity.
Qed.

(** The overflow example of the specification: L = 300, R = 0.5, 50 s on
    the primary shelf and 100 s on overflow give 0.75, in exact arithmetic
    and in float64; and the pizza, 100 s on its primary shelf, has the
    single-rate value in float64. *)
Lemma CalculateValue_canonical_witness :
  (CalculateValue (F:=Q) fries (T0 + sec 150) == canonical_value fries (T0 + sec 150))%Q /\
  (canonical_value fries (T0 + sec 150) == 3 # 4)%Q /\
  CalculateValue (F:=float) fries (T0 + sec 150) = segment_value fries (T0 + sec 150) /\
  segment_value (F:=float) fries (T0 + sec 150) = 0.75%float /\
  CalculateValue (F:=float) pizza (T0 + sec 100) = single_rate_value pizza (T0 + sec 100).
Proof.
  split; [|split; [|split; [|split]]].
  - refine (proj1 (proj2 (proj2 CalculateValue_canonical) fries (T0 + sec 150)%Z _ _)).
    + vm_compute. discriminate.
    + vm_compute. split; split; discriminate.
  - vm_compute. reflexivity.
  - refine (proj1 (proj1 (proj2 CalculateValue_canonical) fries (T0 + sec 150)%Z _)).
    vm_compute. reflexivity.
  - vm_compute. reflexivity.
  - refine (proj2 (proj1 (proj2 CalculateValue_canonical) pizza (T0 + sec 100)%Z _) _).
    + vm_compute. reflexivity.
    + reflexivity.
Defined.

(** C1 fails as stated, in float64. The custard (L = 3, R = 0.3) after 1 s
    on its primary shelf and 9 s on overflow: the two products add up to
    less than 3, so CalculateValue is positive and the order is not
    expired, while the single-rate value max(0, L - R*10) / L is 0 and the
    same order left on its primary shelf is expired. And for a shelf life
    of 0 CalculateValue is 0 where the formula, 0 / 0, is no number. *)
Lemma CalculateValue_not_single_rate :
  PrimFloat.ltb 0 (CalculateValue (F:=float) custard (T0 + sec 10)) = true /\
  single_rate_value (F:=float) custard (T0 + sec 10) = 0%float /\
  IsExpired (F:=float) custard (T0 + sec 10) = false /\
  IsExpired (F:=float) custard_primary (T0 + sec 10) = true /\
  CalculateValue (F:=float) stale (T0 + sec 1) = 0%float /\
  PrimFloat.is_nan (single_rate_value (F:=float) stale (T0 + sec 1)) = true.
Proof. repeat split; vm_compute; reflexivity. Qed.

(** The tests of order_test.go, in binary64. *)
Example TestCalculateValue :
  CalculateValue (F:=float) pizza (T0 + sec 100) = ((300 - 0.5 * 100) / 300)%float.
Proof. vm_compute. reflexivity. Qed.

Example TestCalculateValue_OverflowShelf :
  CalculateValue (F:=float) fries (T0 + sec 150) = ((300 - 0.5 * 50 - 0.5 * 100) / 300)%float.
Proof. vm_compute. reflexivity. Qed.

Example TestIsExpired :
  IsExpired (F:=float)
    (mkOrder "Ice Cream-1" "Ice Cream" Frozen 100%float 1%float T0 T0 0 "" 0 0)
    (T0 + sec 150) = true.
Proof. vm_compute. reflexivity. Qed.


Lemma decay_mono (o : Order Q) (t1 t2 : Time) :
  (0 <= DecayRate o)%Q -> (t1 <= t2)%Z -> (decay o t1 <= decay o t2)%Q.
Proof.
  intros HR Ht. unfold decay.
  destruct (IsZero (PlacedOnOverflow o)).
  - pose proof (Seconds_mono _ _ (Sub_mono t1 t2 (PlacedOnShelfAt o) Ht)). nra.
  - pose proof (Seconds_mono _ _ (Sub_mono t1 t2 (PlacedOnOverflow o) Ht)). nra.
Qed.





Lemma CalculateValueV2_placed (o : Order Q) (now : Time) :
  IsZero (PlacedOnShelfAt o) = false ->
  (CalculateValueV2 o now ==
   let age := if IsZero (PlacedOnOverflow o)
              then Seconds (Sub now (PlacedOnShelfAt o))
              else Seconds (Sub (PlacedOnOverflow o) (PlacedOnShelfAt o)) +
                   Seconds (Sub now (PlacedOnOverflow o)) in
   let modifier := if IsZero (PlacedOnOverflow o) then 1 else 2 in
   Qmax 0 (ShelfLife o - age - DecayRate o * age * modifier) / ShelfLife o)%Q.
Proof.
  intros Hp. unfold CalculateValueV2. rewrite Hp. cbv zeta.
  destruct (IsZero (PlacedOnOverflow o)); apply value_of_remaining.
Qed.




(** ** Shelf *)

Section ShelfFacts.
Context {F : Type} `{Float64 F}.
Implicit Types (s : Shelf) (w : World F) (a b : addr).

Lemma len_nonneg (m : gmap string addr) : (0 <= len m)%Z.
Proof. unfold len. lia. Qed.

Lemma len_insert_le (m : gmap string addr) i x : (len (<[i:=x]> m) <= len m + 1)%Z.
Proof. unfold len. rewrite map_size_insert. destruct (m !! i); simpl; lia. Qed.

Lemma len_insert_fresh (m : gmap string addr) i x :
  m !! i = None -> len (<[i:=x]> m) = (len m + 1)%Z.
Proof. intros. unfold len. rewrite map_size_insert_None by done. lia. Qed.

Lemma len_delete_Some (m : gmap string addr) i x :
  m !! i = Some x -> len (delete i m) = (len m - 1)%Z.
Proof.
  intros Hi. unfold len. rewrite map_size_delete, Hi.
  assert (size m ≠ 0) by (eapply map_size_ne_0_lookup_2; eauto). lia.
Qed.

Lemma AddOrder_full s a w :
  (Capacity s <= len (Orders s))%Z -> AddOrder s a w = (false, s, w).
Proof.
  intros Hc. unfold AddOrder.
  destruct (Z.leb_spec (Capacity s) (len (Orders s))); [reflexivity | lia].
Qed.

Lemma AddOrder_room s a w :
  (len (Orders s) < Capacity s)%Z ->
  exists st' w',
    AddOrder s a w =
      (true, mkShelf (Type_ s) (Capacity s) st' (<[ID (store w a) := a]> (Orders s)), w') /\
    OrdersAdded st' = (OrdersAdded (stats s) + 1)%Z /\
    OrdersRemoved st' = OrdersRemoved (stats s) /\
    OrdersWasted st' = OrdersWasted (stats s) /\
    OrdersDelivered st' = OrdersDelivered (stats s) /\
    (forall b, b <> a -> store w' b = store w b) /\
    (forall b, ID (store w' b) = ID (store w b)) /\
    (forall b, Temp (store w' b) = Temp (store w b)) /\
    (forall b, WastedAt (store w' b) = WastedAt (store w b)) /\
    (forall b, DeliveredAt (store w' b) = DeliveredAt (store w b)) /\
    (forall b, IsZero (PlacedOnOverflow (store w b)) = false ->
               PlacedOnOverflow (store w' b) = PlacedOnOverflow (store w b)) /\
    clock w' = clock w /\ ticks w <= ticks w'.
Proof.
  intros Hc. unfold AddOrder.
  destruct (Z.leb_spec (Capacity s) (len (Orders s))); [lia|].
  unfold_M.
  destruct (IsZero (PlacedOnShelfAt (store w a))) eqn:Hp;
    destruct (String.eqb (Type_ s) OverflowShelf) eqn:Ht; simpl;
    rewrite ?Nat.eqb_refl; simpl;
    try (destruct (IsZero (PlacedOnOverflow (store w a))) eqn:Ho; simpl);
    rewrite ?Nat.eqb_refl; simpl;
    (eexists _, _; split; [reflexivity|]; simpl;
     repeat split; try lia;
     intros b; try intros Hb; destruct (Nat.eqb_spec b a); subst; simpl; congruence).
Qed.

(** Expiry reads the decay fields only. *)
Lemma IsExpired_upto_WastedAt (o o' : Order F) now :
  set_WastedAt 0 o' = set_WastedAt 0 o -> IsExpired o' now = IsExpired o now.
Proof.
  intros E. unfold IsExpired, CalculateValue.
  injection E as _ _ _ -> -> _ -> -> _ _. reflexivity.
Qed.

Lemma IsExpired_set_WastedAt (o : Order F) t now :
  IsExpired (set_WastedAt t o) now = IsExpired o now.
Proof. reflexivity. Qed.

(** The loop of RemoveExpiredOrders over any list [l] of entries of the
    shelf with distinct keys. *)
Lemma range_spec now ex l : forall c s w,
  (forall a, IsExpired (store w a) now = ex a) ->
  NoDup l.*1 ->
  (forall id p, (id, p) ∈ l -> Orders s !! id = Some p) ->
  exists s' w',
    range l now (c, s) w = ((c + expired_count ex l)%Z, s', w') /\
    (forall id, Orders s' !! id = if expired_key ex l id then None else Orders s !! id) /\
    (forall a, store w' a = if expired_addr ex l a
                            then set_WastedAt now (store w a) else store w a) /\
    len (Orders s') = (len (Orders s) - expired_count ex l)%Z /\
    Type_ s' = Type_ s /\ Capacity s' = Capacity s /\
    stats s' = mkStats (OrdersAdded (stats s)) (OrdersRemoved (stats s))
                       (OrdersWasted (stats s) + expired_count ex l)
                       (OrdersDelivered (stats s)) (PeakUsage (stats s)) /\
    clock w' = clock w /\ ticks w' = ticks w.
Proof.
  induction l as [|[id p] l IH]; intros c s w Hex Hnd Hin.
  - exists s, w. simpl. rewrite Z.add_0_r, Z.sub_0_r.
    repeat split; try reflexivity. destruct (stats s); simpl. f_equal; lia.
  - apply NoDup_cons in Hnd as [Hid Hnd]. simpl in Hid.
    simpl range. unfold bind at 1. unfold sweep_entry. unfold_M.
    rewrite Hex. simpl expired_count.
    destruct (ex p) eqn:He.
    + set (w1 := mkWorld _ _ _).
      set (s1 := mkShelf _ _ _ _).
      destruct (IH (c + 1)%Z s1 w1) as (s' & w' & Hr & Hm & Hs & Hl & Ht & Hc & Hst & Hck & Htk);
        [| assumption | |].
      { intros a. subst w1; simpl. rewrite <- Hex.
        destruct (Nat.eqb_spec a p); subst; reflexivity. }
      { intros id' p' Hin'. subst s1; simpl. rewrite lookup_delete_ne.
        - apply Hin. by right.
        - intros ->. apply Hid. apply list_elem_of_fmap. by exists (id', p'). }
      exists s', w'. rewrite Hr, Hl, Hst, Ht, Hc, Hck, Htk. subst s1 w1; simpl.
      split; [f_equal; f_equal; lia|].
      split; [|split; [|split; [|repeat split; try reflexivity; f_equal; lia]]].
      * intros id'. rewrite Hm. simpl. rewrite He, andb_true_r.
        destruct (String.eqb_spec id id'); subst; simpl.
        -- rewrite lookup_delete_eq. by destruct (expired_key ex l id').
        -- by rewrite lookup_delete_ne.
      * intros a. rewrite Hs. simpl. rewrite He, andb_true_r.
        rewrite (Nat.eqb_sym p a).
        destruct (Nat.eqb_spec a p); subst; simpl; [|reflexivity].
        by destruct (expired_addr ex l p).
      * rewrite (len_delete_Some _ _ p); [lia|]. apply Hin. by left.
    + destruct (IH c s w) as (s' & w' & Hr & Hm & Hs & Hl & Ht & Hc & Hst & Hck & Htk);
        [assumption | assumption | |].
      { intros id' p' Hin'. apply Hin. by right. }
      exists s', w'. rewrite Hr, Hl, Hst, Ht, Hc, Hck, Htk. rewrite Z.add_0_l.
      split; [reflexivity|].
      split; [|split; [|repeat split; reflexivity]].
      * intros id'. rewrite Hm. simpl. by rewrite He, andb_false_r.
      * intros a. rewrite Hs. simpl. by rewrite He, andb_false_r.
Qed.

Lemma expired_count_nonneg ex l : (0 <= expired_count ex l)%Z.
Proof. induction l as [|e l IH]; simpl; [lia|]. destruct (ex e.2); lia. Qed.

Lemma expired_on_spec s w now a :
  expired_on s w now a = true <->
  exists id, Orders s !! id = Some a /\ IsExpired (store w a) now = true.
Proof.
  unfold expired_on. rewrite existsb_exists. split.
  - intros ([id p] & Hin & Hb). simpl in Hb.
    apply andb_true_iff in Hb as [Hp He]. apply Nat.eqb_eq in Hp. subst p.
    exists id. split; [|done]. apply elem_of_map_to_list. by apply list_elem_of_In.
  - intros (id & Hl & He). exists (id, a). split.
    + apply list_elem_of_In. by apply elem_of_map_to_list.
    + simpl. by rewrite Nat.eqb_refl, He.
Qed.

Lemma expired_key_map_to_list ex (m : gmap string addr) id :
  expired_key ex (map_to_list m) id = true <-> exists p, m !! id = Some p /\ ex p = true.
Proof.
  unfold expired_key. rewrite existsb_exists. split.
  - intros ([id' p] & Hin & Hb). simpl in Hb.
    apply andb_true_iff in Hb as [Hp He]. apply String.eqb_eq in Hp. subst id'.
    exists p. split; [|done]. apply elem_of_map_to_list. by apply list_elem_of_In.
  - intros (p & Hl & He). exists (id, p). split.
    + apply list_elem_of_In. by apply elem_of_map_to_list.
    + simpl. by rewrite String.eqb_refl, He.
Qed.

(** Shelf.RemoveExpiredOrders: the entries that stay are those not expired
    at the reading [now] of the clock; the expired orders, and only they,
    get [WastedAt = now]; the count is the number of entries deleted. *)
Lemma RemoveExpiredOrders_spec s w :
  let now := clock w (ticks w) in
  exists n s' w',
    RemoveExpiredOrders s w = (n, s', w') /\
    Orders s' = filter (fun kv => IsExpired (store w kv.2) now = false) (Orders s) /\
    (forall a, store w' a = if expired_on s w now a
                            then set_WastedAt now (store w a) else store w a) /\
    n = (len (Orders s) - len (Orders s'))%Z /\ (0 <= n)%Z /\
    Type_ s' = Type_ s /\ Capacity s' = Capacity s /\
    stats s' = mkStats (OrdersAdded (stats s)) (OrdersRemoved (stats s))
                       (OrdersWasted (stats s) + n)
                       (OrdersDelivered (stats s)) (PeakUsage (stats s)) /\
    clock w' = clock w /\ ticks w' = S (ticks w).
Proof.
  intros now. unfold RemoveExpiredOrders, bind, time_Now. fold now.
  set (w1 := mkWorld (store w) (clock w) (S (ticks w))).
  set (ex := fun a => IsExpired (store w a) now).
  destruct (range_spec now ex (map_to_list (Orders s)) 0 s w1)
    as (s' & w' & Hr & Hm & Hs & Hl & Ht & Hc & Hst & Hck & Htk).
  { reflexivity. }
  { apply NoDup_fst_map_to_list. }
  { intros id p. apply elem_of_map_to_list. }
  exists (expired_count ex (map_to_list (Orders s))), s', w'.
  rewrite Hr, Hl, Hst. simpl.
  split; [reflexivity|]. split; [|split; [exact Hs|]].
  - apply map_eq. intros id. rewrite Hm.
    destruct (expired_key ex (map_to_list (Orders s)) id) eqn:Hk.
    + apply expired_key_map_to_list in Hk as (p & Hp & He).
      symmetry. apply map_lookup_filter_None. right. intros p' Hp'. simpl.
      rewrite Hp in Hp'. injection Hp' as <-. unfold ex in He. congruence.
    + destruct (Orders s !! id) as [p|] eqn:Hp.
      * symmetry. apply map_lookup_filter_Some. split; [done|]. simpl.
        destruct (IsExpired (store w p) now) eqn:He; [|done].
        assert (expired_key ex (map_to_list (Orders s)) id = true); [|congruence].
        apply expired_key_map_to_list. eauto.
      * symmetry. apply map_lookup_filter_None. by left.
  - pose proof (expired_count_nonneg ex (map_to_list (Orders s))).
    repeat split; try done; lia.
Qed.
End ShelfFacts.

Section ManagerFacts.
Context {F : Type} `{Float64 F}.
Implicit Types (s : Shelf) (w : World F) (a b : addr) (sm : ShelfManager).

Lemma existsb_ext' {A} (f g : A -> bool) l : (forall x, f x = g x) -> existsb f l = existsb g l.
Proof. intros E. induction l; simpl; [done|]. by rewrite E, IHl. Qed.

Lemma expired_on_upto_WastedAt s w w' now a :
  (forall b, set_WastedAt 0 (store w' b) = set_WastedAt 0 (store w b)) ->
  expired_on s w' now a = expired_on s w now a.
Proof.
  intros E. unfold expired_on. apply existsb_ext'. intros e.
  by rewrite (IsExpired_upto_WastedAt _ _ now (E e.2)).
Qed.

Lemma filter_upto_WastedAt (m : gmap string addr) w w' now :
  (forall b, set_WastedAt 0 (store w' b) = set_WastedAt 0 (store w b)) ->
  filter (fun kv => IsExpired (store w' kv.2) now = false) m =
  filter (fun kv => IsExpired (store w kv.2) now = false) m.
Proof.
  intros E. apply map_filter_ext. intros i x _.
  by rewrite (IsExpired_upto_WastedAt _ _ now (E x)).
Qed.

(** The manager's sweep: four shelf sweeps, each at its own reading of the
    clock, with [expired_on] telling which orders each of them removes. *)
Lemma sm_RemoveExpiredOrders_spec sm w :
  exists n sm' w',
    sm_RemoveExpiredOrders sm w = (n, sm', w') /\
    (forall r, Orders (shelf_at sm' r) =
               filter (fun kv => IsExpired (store w kv.2) (snapshot w r) = false)
                      (Orders (shelf_at sm r))) /\
    (forall a, (forall r, expired_on (shelf_at sm r) w (snapshot w r) a = false) ->
               store w' a = store w a) /\
    (forall a r, expired_on (shelf_at sm r) w (snapshot w r) a = true ->
               (exists r', expired_on (shelf_at sm r') w (snapshot w r') a = true /\
                           WastedAt (store w' a) = snapshot w r') /\
               set_WastedAt 0 (store w' a) = set_WastedAt 0 (store w a)) /\
    n = (occupancy sm - occupancy sm')%Z /\
    TotalOrdersExpired sm' = (TotalOrdersExpired sm + n)%Z /\
    TotalOrdersReceived sm' = TotalOrdersReceived sm /\
    TotalOrdersDelivered sm' = TotalOrdersDelivered sm /\
    TotalOrdersWasted sm' = TotalOrdersWasted sm.
Proof.
  unfold sm_RemoveExpiredOrders.
  destruct (RemoveExpiredOrders_spec (sm_HotShelf sm) w)
    as (n1 & s1 & w1 & R1 & M1 & S1 & N1 & _ & _ & _ & _ & C1 & T1).
  destruct (RemoveExpiredOrders_spec (sm_ColdShelf sm) w1)
    as (n2 & s2 & w2 & R2 & M2 & S2 & N2 & _ & _ & _ & _ & C2 & T2).
  destruct (RemoveExpiredOrders_spec (sm_FrozenShelf sm) w2)
    as (n3 & s3 & w3 & R3 & M3 & S3 & N3 & _ & _ & _ & _ & C3 & T3).
  destruct (RemoveExpiredOrders_spec (sm_OverflowShelf sm) w3)
    as (n4 & s4 & w4 & R4 & M4 & S4 & N4 & _ & _ & _ & _ & C4 & T4).
  cbv zeta in *.
  unfold bind at 1. rewrite R1. simpl. unfold bind at 1. rewrite R2. simpl.
  unfold bind at 1. rewrite R3. simpl. unfold bind at 1. rewrite R4. simpl.
  unfold ret.
  assert (E1 : forall b, set_WastedAt 0 (store w1 b) = set_WastedAt 0 (store w b)).
  { intros b. rewrite S1. by destruct (expired_on _ _ _ _). }
  assert (E2 : forall b, set_WastedAt 0 (store w2 b) = set_WastedAt 0 (store w b)).
  { intros b. rewrite S2, <- E1. by destruct (expired_on _ _ _ _). }
  assert (E3 : forall b, set_WastedAt 0 (store w3 b) = set_WastedAt 0 (store w b)).
  { intros b. rewrite S3, <- E2. by destruct (expired_on _ _ _ _). }
  assert (K1 : clock w1 (ticks w1) = snapshot w coldShelf).
  { unfold snapshot. simpl. rewrite C1, T1. f_equal. lia. }
  assert (K2 : clock w2 (ticks w2) = snapshot w frozenShelf).
  { unfold snapshot. simpl. rewrite C2, C1, T2, T1. f_equal. lia. }
  assert (K3 : clock w3 (ticks w3) = snapshot w overflowShelf).
  { unfold snapshot. simpl. rewrite C3, C2, C1, T3, T2, T1. f_equal. lia. }
  assert (K0 : clock w (ticks w) = snapshot w hotShelf).
  { unfold snapshot. simpl. f_equal. lia. }
  rewrite K0 in *. rewrite K1 in *. rewrite K2 in *. rewrite K3 in *.
  rewrite (filter_upto_WastedAt _ _ _ _ E1) in M2.
  rewrite (filter_upto_WastedAt _ _ _ _ E2) in M3.
  rewrite (filter_upto_WastedAt _ _ _ _ E3) in M4.
  assert (S2' := fun a => eq_trans (S2 a)
    (f_equal (fun b : bool => if b then _ else _) (expired_on_upto_WastedAt _ _ _ _ a E1))).
  assert (S3' := fun a => eq_trans (S3 a)
    (f_equal (fun b : bool => if b then _ else _) (expired_on_upto_WastedAt _ _ _ _ a E2))).
  assert (S4' := fun a => eq_trans (S4 a)
    (f_equal (fun b : bool => if b then _ else _) (expired_on_upto_WastedAt _ _ _ _ a E3))).
  simpl in S2', S3', S4'. clear S2 S3 S4.
  eexists _, _, _. split; [reflexivity|]. simpl.
  split; [|split; [|split; [|split; [|repeat split; lia]]]].
  - intros []; [exact M1 | exact M2 | exact M3 | exact M4].
  - intros a Ha.
    pose proof (Ha hotShelf) as A1. pose proof (Ha coldShelf) as A2.
    pose proof (Ha frozenShelf) as A3. pose proof (Ha overflowShelf) as A4.
    simpl in A1, A2, A3, A4.
    rewrite S4', A4, S3', A3, S2', A2, S1, A1. reflexivity.
  - intros a r Hr. split.
    + rewrite S4', S3', S2', S1.
      destruct (expired_on (sm_OverflowShelf sm) w (snapshot w overflowShelf) a) eqn:A4;
        [exists overflowShelf; by split|].
      destruct (expired_on (sm_FrozenShelf sm) w (snapshot w frozenShelf) a) eqn:A3;
        [exists frozenShelf; by split|].
      destruct (expired_on (sm_ColdShelf sm) w (snapshot w coldShelf) a) eqn:A2;
        [exists coldShelf; by split|].
      destruct (expired_on (sm_HotShelf sm) w (snapshot w hotShelf) a) eqn:A1;
        [exists hotShelf; by split|].
      destruct r; simpl in Hr; congruence.
    + rewrite <- E3, S4'.
      destruct (expired_on (sm_OverflowShelf sm) w (snapshot w overflowShelf) a); reflexivity.
  - unfold occupancy, Size. simpl. lia.
Qed.

(** DeliverOrder of an identifier that no shelf holds. *)
Lemma DeliverOrder_absent sm orderID w :
  (forall r, Orders (shelf_at sm r) !! orderID = None) ->
  DeliverOrder sm orderID w = (false, sm, w).
Proof.
  intros Hn.
  pose proof (Hn hotShelf) as H1. pose proof (Hn coldShelf) as H2.
  pose proof (Hn frozenShelf) as H3. pose proof (Hn overflowShelf) as H4.
  simpl in H1, H2, H3, H4.
  unfold DeliverOrder, orElse, deliverFromShelf, GetOrder, bind, ret. simpl.
  rewrite H1. simpl. rewrite H2. simpl. rewrite H3. simpl. rewrite H4. simpl.
  reflexivity.
Qed.

(** DeliverOrder of an identifier whose first holder is shelf [r]. *)
Lemma DeliverOrder_present sm orderID w r a :
  Orders (shelf_at sm r) !! orderID = Some a ->
  (forall r', index r' < index r -> Orders (shelf_at sm r') !! orderID = None) ->
  exists sm' w',
    DeliverOrder sm orderID w = (true, sm', w') /\
    Orders (shelf_at sm' r) = delete orderID (Orders (shelf_at sm r)) /\
    Size (shelf_at sm' r) = (Size (shelf_at sm r) - 1)%Z /\
    (forall r', r' <> r -> shelf_at sm' r' = shelf_at sm r') /\
    store w' a = set_DeliveredAt (clock w (ticks w)) (store w a) /\
    (forall b, b <> a -> store w' b = store w b) /\
    TotalOrdersDelivered sm' = (TotalOrdersDelivered sm + 1)%Z /\
    TotalOrdersReceived sm' = TotalOrdersReceived sm /\
    TotalOrdersExpired sm' = TotalOrdersExpired sm /\
    TotalOrdersWasted sm' = TotalOrdersWasted sm.
Proof.
  intros Ha Hfirst.
  assert (H1 : index hotShelf < index r -> Orders (sm_HotShelf sm) !! orderID = None)
    by apply (Hfirst hotShelf).
  assert (H2 : index coldShelf < index r -> Orders (sm_ColdShelf sm) !! orderID = None)
    by apply (Hfirst coldShelf).
  assert (H3 : index frozenShelf < index r -> Orders (sm_FrozenShelf sm) !! orderID = None)
    by apply (Hfirst frozenShelf).
  clear Hfirst.
  unfold DeliverOrder, orElse, deliverFromShelf, GetOrder, MarkOrderDelivered, bind, ret.
  destruct r; simpl in *;
    rewrite ?H1, ?H2, ?H3 by lia; simpl; rewrite Ha; simpl;
    unfold bind, ret, time_Now, assign; simpl;
    (eexists _, _; split; [reflexivity|]; simpl;
     split; [reflexivity|];
     split; [unfold Size; simpl; by apply len_delete_Some with a|];
     split; [intros [] Hne; simpl; congruence|];
     split; [by rewrite Nat.eqb_refl|];
     split; [intros b Hb; by destruct (Nat.eqb_spec b a)|];
     repeat split; reflexivity).
Qed.

(** C7: DeliverOrder looks for the identifier on the shelves hot, cold,
    frozen, overflow, in this order. If no shelf holds it, the call returns
    false and the manager and the world (counters, shelves, orders) are
    what they were. If shelf [r] is the first that holds it, at address
    [a], the call returns true, the entry is deleted from [r] and from no
    other shelf, the DeliveredAt of the order at [a] is the reading of the
    clock, its other fields and the other orders are what they were, and
    TotalOrdersDelivered grows by one while the other counters stay. *)
Theorem DeliverOrder_first_holder sm orderID w :
  ((forall r, Orders (shelf_at sm r) !! orderID = None) ->
   DeliverOrder sm orderID w = (false, sm, w)) /\
  (forall r a,
     Orders (shelf_at sm r) !! orderID = Some a ->
     (forall r', index r' < index r -> Orders (shelf_at sm r') !! orderID = None) ->
     exists sm' w',
       DeliverOrder sm orderID w = (true, sm', w') /\
       Orders (shelf_at sm' r) = delete orderID (Orders (shelf_at sm r)) /\
       Size (shelf_at sm' r) = (Size (shelf_at sm r) - 1)%Z /\
       (forall r', r' <> r -> shelf_at sm' r' = shelf_at sm r') /\
       store w' a = set_DeliveredAt (clock w (ticks w)) (store w a) /\
       (forall b, b <> a -> store w' b = store w b) /\
       TotalOrdersDelivered sm' = (TotalOrdersDelivered sm + 1)%Z /\
       TotalOrdersReceived sm' = TotalOrdersReceived sm /\
       TotalOrdersExpired sm' = TotalOrdersExpired sm /\
       TotalOrdersWasted sm' = TotalOrdersWasted sm /\
       DeliveredAt (store w' a) = clock w (ticks w) /\
       ID (store w' a) = ID (store w a) /\
       Name (store w' a) = Name (store w a) /\
       Temp (store w' a) = Temp (store w a) /\
       ShelfLife (store w' a) = ShelfLife (store w a) /\
       DecayRate (store w' a) = DecayRate (store w a) /\
       CreatedAt (store w' a) = CreatedAt (store w a) /\
       PlacedOnShelfAt (store w' a) = PlacedOnShelfAt (store w a) /\
       PlacedOnOverflow (store w' a) = PlacedOnOverflow (store w a) /\
       CurrentShelfType (store w' a) = CurrentShelfType (store w a) /\
       WastedAt (store w' a) = WastedAt (store w a)).
Proof.
  split.
  - apply DeliverOrder_absent.
  - intros r a Ha Hfirst.
    destruct (DeliverOrder_present sm orderID w r a Ha Hfirst)
      as (sm' & w' & E & Ho & Hs & Hr & Hst & Hb & Hd & Hrec & Hexp & Hwa).
    exists sm', w'. rewrite Hst.
    split; [exact E|]. split; [exact Ho|]. split; [exact Hs|]. split; [exact Hr|].
    split; [reflexivity|]. split; [exact Hb|]. split; [exact Hd|]. split; [exact Hrec|].
    split; [exact Hexp|]. split; [exact Hwa|]. repeat split.
Qed.

(** C6: one call of the manager's RemoveExpiredOrders sweeps the shelves
    hot, cold, frozen, overflow, each at its own reading of the clock
    ([snapshot w r]). An entry is on a shelf afterwards exactly when it was
    there before and its order is not expired at that shelf's reading; an
    order removed from a shelf has its wasted timestamp set to the reading
    of a sweep that removed it, and no other field changed; an order that
    no sweep found expired is untouched; the count returned is the number
    of entries removed, and it is added to TotalOrdersExpired while the
    other counters stay. *)
Theorem sm_RemoveExpiredOrders_exact sm w :
  exists n sm' w',
    sm_RemoveExpiredOrders sm w = (n, sm', w') /\
    (forall r id a,
       Orders (shelf_at sm' r) !! id = Some a <->
       Orders (shelf_at sm r) !! id = Some a /\
       IsExpired (store w a) (snapshot w r) = false) /\
    (forall r id a,
       Orders (shelf_at sm r) !! id = Some a ->
       IsExpired (store w a) (snapshot w r) = true ->
       (exists r' id',
          Orders (shelf_at sm r') !! id' = Some a /\
          IsExpired (store w a) (snapshot w r') = true /\
          WastedAt (store w' a) = snapshot w r') /\
       set_WastedAt 0 (store w' a) = set_WastedAt 0 (store w a)) /\
    (forall a,
       (forall r id, Orders (shelf_at sm r) !! id = Some a ->
                     IsExpired (store w a) (snapshot w r) = false) ->
       store w' a = store w a) /\
    n = (occupancy sm - occupancy sm')%Z /\
    TotalOrdersExpired sm' = (TotalOrdersExpired sm + n)%Z /\
    TotalOrdersReceived sm' = TotalOrdersReceived sm /\
    TotalOrdersDelivered sm' = TotalOrdersDelivered sm /\
    TotalOrdersWasted sm' = TotalOrdersWasted sm.
Proof.
  destruct (sm_RemoveExpiredOrders_spec sm w)
    as (n & sm' & w' & Hrun & Hmap & Hkeep & Hmark & Hcount).
  exists n, sm', w'. split; [exact Hrun|].
  split; [|split; [|split; [|exact Hcount]]].
  - intros r id a. rewrite Hmap. apply map_lookup_filter_Some.
  - intros r id a Ha He.
    destruct (Hmark a r) as [(r' & Hr' & Hw) Hsame].
    { apply expired_on_spec. eauto. }
    split; [|exact Hsame].
    apply expired_on_spec in Hr' as (id' & Ha' & He'). eauto 6.
  - intros a Hnot. apply Hkeep. intros r.
    destruct (expired_on (shelf_at sm r) w (snapshot w r) a) eqn:E; [|reflexivity].
    apply expired_on_spec in E as (id & Ha & He).
    rewrite (Hnot r id Ha) in He. discriminate.
Qed.

Lemma resident_false sm id :
  resident sm id = false -> forall r, Orders (shelf_at sm r) !! id = None.
Proof.
  unfold resident. rewrite !orb_false_iff, !bool_decide_eq_false.
  intros [[[H1 H2] H3] H4] [] ; simpl; by apply eq_None_not_Some.
Qed.

Lemma PlaceOrder_counts sm a w :
  resident sm (ID (store w a)) = false ->
  exists ok sm' w',
    PlaceOrder sm a w = (ok, sm', w') /\
    TotalOrdersReceived sm' = (TotalOrdersReceived sm + 1)%Z /\
    TotalOrdersDelivered sm' = TotalOrdersDelivered sm /\
    TotalOrdersExpired sm' = TotalOrdersExpired sm /\
    ((ok = true /\ TotalOrdersWasted sm' = TotalOrdersWasted sm /\
      occupancy sm' = (occupancy sm + 1)%Z) \/
     (ok = false /\ TotalOrdersWasted sm' = (TotalOrdersWasted sm + 1)%Z /\
      occupancy sm' = occupancy sm)).
Proof.
  intros Hfresh. pose proof (resident_false _ _ Hfresh) as Hnone.
  unfold PlaceOrder. unfold bind at 1. unfold deref.
  destruct (GetShelfForTemperature (Temp (store w a))) as [r|].
  2:{ unfold ret. eexists _, _, _. split; [reflexivity|]. simpl.
      repeat split. right. repeat split. }
  unfold bind at 1.
  assert (Hr : shelf_at (incr_Received sm) r = shelf_at sm r) by (by destruct r).
  rewrite Hr.
  destruct (Z.leb_spec (Capacity (shelf_at sm r)) (len (Orders (shelf_at sm r)))) as [Hfull|Hroom].
  - rewrite (AddOrder_full _ _ _ Hfull).
    assert (Hs : set_shelf (incr_Received sm) r (shelf_at sm r) = incr_Received sm)
      by (destruct r, sm; reflexivity).
    rewrite Hs. unfold bind at 1.
    change (sm_OverflowShelf (incr_Received sm)) with (sm_OverflowShelf sm).
    destruct (Z.leb_spec (Capacity (sm_OverflowShelf sm)) (len (Orders (sm_OverflowShelf sm))))
      as [Hfull'|Hroom'].
    + rewrite (AddOrder_full _ _ _ Hfull'). unfold_M.
      eexists _, _, _. split; [reflexivity|]. simpl. repeat split. right.
      repeat split.
    + destruct (AddOrder_room (sm_OverflowShelf sm) a w Hroom') as (st' & w' & Ha & _).
      rewrite Ha. unfold_M.
      eexists _, _, _. split; [reflexivity|]. simpl. repeat split. left.
      repeat split. unfold occupancy, Size. simpl.
      rewrite len_insert_fresh by apply (Hnone overflowShelf). lia.
  - destruct (AddOrder_room (shelf_at sm r) a w Hroom) as (st' & w' & Ha & _).
    rewrite Ha. unfold_M.
    eexists _, _, _. split; [reflexivity|]. simpl. repeat split. left.
    repeat split. unfold occupancy, Size.
    pose proof (len_insert_fresh _ _ a (Hnone r)) as Hl.
    destruct r; simpl in *; lia.
Qed.

Lemma first_holder sm id :
  (forall r, Orders (shelf_at sm r) !! id = None) \/
  exists r a, Orders (shelf_at sm r) !! id = Some a /\
    forall r', index r' < index r -> Orders (shelf_at sm r') !! id = None.
Proof.
  destruct (Orders (shelf_at sm hotShelf) !! id) as [a|] eqn:H1.
  { right. exists hotShelf, a. split; [done|]. intros r'. simpl. lia. }
  destruct (Orders (shelf_at sm coldShelf) !! id) as [a|] eqn:H2.
  { right. exists coldShelf, a. split; [done|]. intros [] ?; simpl in *; try lia; done. }
  destruct (Orders (shelf_at sm frozenShelf) !! id) as [a|] eqn:H3.
  { right. exists frozenShelf, a. split; [done|]. intros [] ?; simpl in *; try lia; done. }
  destruct (Orders (shelf_at sm overflowShelf) !! id) as [a|] eqn:H4.
  { right. exists overflowShelf, a. split; [done|]. intros [] ?; simpl in *; try lia; done. }
  left. by intros [].
Qed.

Lemma occupancy_shelf_at sm :
  occupancy sm = (Size (shelf_at sm hotShelf) + Size (shelf_at sm coldShelf) +
                  Size (shelf_at sm frozenShelf) + Size (shelf_at sm overflowShelf))%Z.
Proof. reflexivity. Qed.

Lemma step_reconciled sm op w :
  (if op is OpPlace order then resident sm (ID (store w order)) = false else True) ->
  reconciled sm -> reconciled (step sm op w).1.
Proof.
  unfold reconciled. intros Hfresh Hinv. destruct op as [a|id|]; simpl; unfold bind.
  - destruct (PlaceOrder_counts sm a w Hfresh)
      as (ok & sm' & w' & -> & Hr & Hd & He & [(_ & Hw & Ho)|(_ & Hw & Ho)]); simpl; lia.
  - destruct (first_holder sm id) as [Hn|(r & a & Ha & Hf)].
    + rewrite (DeliverOrder_absent sm id w Hn). simpl. exact Hinv.
    + destruct (DeliverOrder_present sm id w r a Ha Hf)
        as (sm' & w' & -> & _ & Hs & Ho & _ & _ & Hd & Hr & He & Hw). simpl.
      rewrite (occupancy_shelf_at sm'). rewrite (occupancy_shelf_at sm) in Hinv.
      pose proof (Ho hotShelf) as O1. pose proof (Ho coldShelf) as O2.
      pose proof (Ho frozenShelf) as O3. pose proof (Ho overflowShelf) as O4.
      destruct r;
        try rewrite O1 by discriminate; try rewrite O2 by discriminate;
        try rewrite O3 by discriminate; try rewrite O4 by discriminate; lia.
  - destruct (sm_RemoveExpiredOrders_spec sm w)
      as (n & sm' & w' & -> & _ & _ & _ & Hn & He & Hr & Hd & Hw).
    simpl. lia.
Qed.

Lemma run_reconciled ops : forall sm w,
  fresh_placements sm ops w -> reconciled sm -> reconciled (run sm ops w).1.
Proof.
  induction ops as [|op ops IH]; intros sm w Hf Hinv; simpl; [exact Hinv|].
  destruct Hf as [Hop Hrest]. unfold bind.
  pose proof (step_reconciled sm op w Hop Hinv) as Hstep.
  destruct (step sm op w) as [sm' w']. simpl in *. by apply IH.
Qed.

Lemma fresh_placements_take ops : forall k sm w,
  fresh_placements sm ops w -> fresh_placements sm (take k ops) w.
Proof.
  induction ops as [|op ops IH]; intros [|k] sm w Hf; simpl; try done.
  destruct Hf as [Hop Hrest]. split; [done|]. by apply IH.
Qed.

(** C3 (as amended): starting from a freshly constructed manager, after
    every operation of a sequence of PlaceOrder, DeliverOrder and
    RemoveExpiredOrders calls in which each PlaceOrder is given an order
    whose identifier is on no shelf at that moment, total received = total
    delivered + total wasted + total expired + the four occupancies. *)
Theorem reconciliation (hot cold frozen overflow : Z) (ops : list Op) w :
  fresh_placements (NewShelfManager hot cold frozen overflow) ops w ->
  forall k, reconciled (run (NewShelfManager hot cold frozen overflow) (take k ops) w).1.
Proof.
  intros Hf k. apply run_reconciled; [by apply fresh_placements_take|].
  reflexivity.
Qed.
End ManagerFacts.

Section ShelfRuns.
Context {F : Type} `{Float64 F}.
Implicit Types (s : Shelf) (w : World F) (a b : addr).

Lemma MarkOrderDelivered_spec s id w :
  match Orders s !! id with
  | None => MarkOrderDelivered s id w = (false, s, w)
  | Some a =>
      exists s' w',
        MarkOrderDelivered s id w = (true, s', w') /\
        Orders s' = delete id (Orders s) /\ Capacity s' = Capacity s /\
        OrdersRemoved (stats s') = (OrdersRemoved (stats s) + 1)%Z /\
        OrdersDelivered (stats s') = (OrdersDelivered (stats s) + 1)%Z /\
        OrdersWasted (stats s') = OrdersWasted (stats s)
  end.
Proof.
  unfold MarkOrderDelivered. destruct (Orders s !! id); [|reflexivity].
  unfold_M. eexists _, _. split; [reflexivity|]. simpl. repeat split.
Qed.

Lemma RemoveOrder_spec s id w :
  match Orders s !! id with
  | None => RemoveOrder s id w = (None, s, w)
  | Some a =>
      exists s',
        RemoveOrder s id w = (Some a, s', w) /\
        Orders s' = delete id (Orders s) /\ Capacity s' = Capacity s /\
        OrdersRemoved (stats s') = (OrdersRemoved (stats s) + 1)%Z /\
        OrdersWasted (stats s') = OrdersWasted (stats s)
  end.
Proof.
  unfold RemoveOrder. destruct (Orders s !! id); [|reflexivity].
  unfold_M. eexists. split; [reflexivity|]. simpl. repeat split.
Qed.

Lemma len_delete_le (m : gmap string addr) i : (len (delete i m) <= len m)%Z.
Proof. unfold len. rewrite map_size_delete. destruct (m !! i); simpl; lia. Qed.

(** Every shelf operation keeps the capacity and the bound, and moves
    [OrdersRemoved] by one exactly when it is a successful RemoveOrder or
    MarkOrderDelivered. *)
Lemma shelf_step_spec s op w :
  exists r s' w',
    shelf_step s op w = (r, s', w') /\
    Capacity s' = Capacity s /\
    ((Size s <= Capacity s)%Z -> (Size s' <= Capacity s')%Z) /\
    OrdersRemoved (stats s') = (OrdersRemoved (stats s) + if r then 1 else 0)%Z.
Proof.
  unfold Size. destruct op as [a|id|id|]; simpl; unfold bind.
  - destruct (Z.leb_spec (Capacity s) (len (Orders s))) as [Hfull|Hroom].
    + rewrite (AddOrder_full _ _ _ Hfull). unfold ret.
      eexists _, _, _. split; [reflexivity|]. repeat split; [done|lia].
    + destruct (AddOrder_room s a w Hroom) as (st' & w' & -> & _ & Hrm & _).
      unfold ret. eexists _, _, _. split; [reflexivity|]. simpl.
      pose proof (len_insert_le (Orders s) (ID (store w a)) a).
      repeat split; lia.
  - pose proof (RemoveOrder_spec s id w) as Hsp.
    destruct (Orders s !! id) as [a|].
    + destruct Hsp as (s' & -> & Ho & Hc & Hr & _). unfold ret.
      eexists _, _, _. split; [reflexivity|]. simpl.
      pose proof (len_delete_le (Orders s) id). rewrite Ho, Hc.
      repeat split; lia.
    + rewrite Hsp. unfold ret. eexists _, _, _. split; [reflexivity|]. simpl.
      repeat split; [done|lia].
  - pose proof (MarkOrderDelivered_spec s id w) as Hsp.
    destruct (Orders s !! id) as [a|].
    + destruct Hsp as (s' & w' & -> & Ho & Hc & Hr & _).
      eexists _, _, _. split; [reflexivity|].
      pose proof (len_delete_le (Orders s) id). rewrite Ho, Hc.
      repeat split; lia.
    + rewrite Hsp. eexists _, _, _. split; [reflexivity|].
      repeat split; [done|lia].
  - destruct (RemoveExpiredOrders_spec s w)
      as (n & s' & w' & -> & _ & _ & Hn & Hpos & _ & Hc & Hst & _).
    unfold ret. eexists _, _, _. split; [reflexivity|]. simpl.
    rewrite Hc, Hst. simpl. repeat split; lia.
Qed.

Lemma shelf_run_spec ops : forall s removals w,
  exists n s' w',
    shelf_run s ops removals w = (n, s', w') /\
    Capacity s' = Capacity s /\
    ((Size s <= Capacity s)%Z -> (Size s' <= Capacity s')%Z) /\
    (OrdersRemoved (stats s') - n = OrdersRemoved (stats s) - removals)%Z.
Proof.
  induction ops as [|op ops IH]; intros s removals w; simpl.
  - unfold ret. eexists _, _, _. split; [reflexivity|]. repeat split; done.
  - unfold bind.
    destruct (shelf_step_spec s op w) as (r & s1 & w1 & -> & Hc1 & Hb1 & Hr1).
    destruct (IH s1 (if r then removals + 1 else removals)%Z w1)
      as (n & s' & w' & -> & Hc & Hb & Hr).
    eexists _, _, _. split; [reflexivity|].
    split; [congruence|]. split; [tauto|]. destruct r; lia.
Qed.

Lemma add_all_distinct orders : forall s w,
  (len (Orders s) + Z.of_nat (length orders) <= Capacity s)%Z ->
  NoDup ((fun a => ID (store w a)) <$> orders) ->
  (forall a, a ∈ orders -> Orders s !! ID (store w a) = None) ->
  exists s' w',
    add_all s orders w = (replicate (length orders) true, s', w') /\
    Size s' = (Size s + Z.of_nat (length orders))%Z /\
    Capacity s' = Capacity s.
Proof.
  induction orders as [|a orders IH]; intros s w Hcap Hnd Hfresh; simpl.
  - unfold ret. eexists _, _. split; [reflexivity|]. split; [lia|done].
  - simpl in Hcap. rewrite fmap_cons in Hnd. apply NoDup_cons in Hnd as [Hid Hnd].
    unfold bind.
    destruct (AddOrder_room s a w) as (st' & w1 & -> & _ & _ & _ & _ & _ & HID & _); [lia|].
    set (s1 := mkShelf _ _ _ _).
    assert (Hl1 : len (Orders s1) = (len (Orders s) + 1)%Z).
    { subst s1; simpl. apply len_insert_fresh, Hfresh. by left. }
    destruct (IH s1 w1) as (s' & w' & -> & Hsz & Hc).
    + subst s1; simpl in *. lia.
    + erewrite list_fmap_ext; [exact Hnd|]. intros i b _. apply HID.
    + intros b Hb. subst s1; simpl. rewrite HID. rewrite lookup_insert_ne.
      * apply Hfresh. by right.
      * intros E. apply Hid. rewrite E. apply list_elem_of_fmap. by exists b.
    + unfold ret. eexists _, _. split; [reflexivity|].
      unfold Size in *. rewrite Hsz, Hc, Hl1. subst s1; simpl. split; [lia|done].
Qed.

Lemma add_all_app l1 l2 s w :
  add_all s (l1 ++ l2) w =
  let '(r1, s1, w1) := add_all s l1 w in
  let '(r2, s2, w2) := add_all s1 l2 w1 in
  (r1 ++ r2, s2, w2).
Proof.
  revert s w. induction l1 as [|a l1 IH]; intros s w; simpl.
  - unfold ret. by destruct (add_all s l2 w) as [[??]?].
  - unfold bind. destruct (AddOrder s a w) as [[b s1] w1].
    rewrite IH. destruct (add_all s1 l1 w1) as [[r1 s2] w2]. unfold ret.
    destruct (add_all s2 l2 w2) as [[r2 s3] w3]. reflexivity.
Qed.

(** C2 (as amended): on a shelf of capacity C, built by NewShelf, the number of
    resident orders is at most C after every sequence of shelf operations;
    AddOrder on a shelf whose occupancy equals its capacity returns false
    and changes neither the shelf nor the world; and C consecutive AddOrder
    calls on the empty shelf, for orders of distinct identifiers, succeed,
    after which one more fails and the occupancy is C. *)
Theorem capacity_bound (kind : ShelfType) (C : nat) :
  (forall ops w, (Size (shelf_run (NewShelf kind (Z.of_nat C)) ops 0 w).1.2 <= Z.of_nat C)%Z) /\
  (forall s a w, Size s = Capacity s -> AddOrder s a w = (false, s, w)) /\
  (forall (orders : list addr) (last : addr) w,
     length orders = C ->
     NoDup ((fun a => ID (store w a)) <$> orders) ->
     exists s' w',
       add_all (NewShelf kind (Z.of_nat C)) (orders ++ [last]) w =
         (replicate C true ++ [false], s', w') /\
       Size s' = Z.of_nat C).
Proof.
  split; [|split].
  - intros ops w.
    destruct (shelf_run_spec ops (NewShelf kind (Z.of_nat C)) 0 w)
      as (n & s' & w' & -> & Hc & Hb & _). simpl in *.
    rewrite <- Hc. apply Hb. unfold Size, len. simpl. rewrite map_size_empty. lia.
  - intros s a w Hs. apply AddOrder_full. unfold Size in Hs. lia.
  - intros orders last w Hlen Hnd.
    rewrite add_all_app.
    destruct (add_all_distinct orders (NewShelf kind (Z.of_nat C)) w)
      as (s1 & w1 & -> & Hsz & Hc).
    + simpl. unfold len. rewrite map_size_empty. lia.
    + exact Hnd.
    + intros a _. simpl. apply lookup_empty.
    + simpl in Hc. unfold Size in *. simpl in Hsz. unfold len at 2 in Hsz.
      rewrite map_size_empty in Hsz. simpl. unfold bind.
      rewrite AddOrder_full by lia. unfold ret.
      eexists _, _. rewrite Hlen. split; [reflexivity|]. lia.
Qed.

(** C10: a shelf's sweep adds to OrdersWasted the number of entries it
    deletes, which is the count it returns, and leaves OrdersRemoved as it
    was; so after every sequence of shelf operations on a new shelf
    OrdersRemoved is the number of successful RemoveOrder and
    MarkOrderDelivered calls. *)
Theorem removed_excludes_expiry :
  (forall s w,
     OrdersWasted (stats (RemoveExpiredOrders s w).1.2) =
       (OrdersWasted (stats s) + (RemoveExpiredOrders s w).1.1)%Z /\
     (RemoveExpiredOrders s w).1.1 = (Size s - Size (RemoveExpiredOrders s w).1.2)%Z /\
     OrdersRemoved (stats (RemoveExpiredOrders s w).1.2) = OrdersRemoved (stats s)) /\
  (forall kind capacity ops w,
     OrdersRemoved (stats (shelf_run (NewShelf kind capacity) ops 0 w).1.2) =
     (shelf_run (NewShelf kind capacity) ops 0 w).1.1).
Proof.
  split.
  - intros s w.
    destruct (RemoveExpiredOrders_spec s w)
      as (n & s' & w' & -> & _ & _ & Hn & _ & _ & _ & Hst & _).
    simpl. rewrite Hst. simpl. repeat split. exact Hn.
  - intros kind capacity ops w.
    destruct (shelf_run_spec ops (NewShelf kind capacity) 0 w)
      as (n & s' & w' & -> & _ & _ & Hr). simpl in *. lia.
Qed.
End ShelfRuns.

(** ** The order of the sweep does not matter *)

Lemma expired_count_perm ex (l l' : list (string * addr)) :
  l ≡ₚ l' -> expired_count ex l = expired_count ex l'.
Proof.
  induction 1 as [|e l l' _ IH|e1 e2 l|l1 l2 l3 _ IH1 _ IH2]; simpl; lia.
Qed.

Lemma existsb_perm {A : Type} (f : A -> bool) (l l' : list A) :
  l ≡ₚ l' -> existsb f l = existsb f l'.
Proof.
  induction 1 as [|e l l' _ IH|e1 e2 l|l1 l2 l3 _ IH1 _ IH2]; simpl; try congruence.
  destruct (f e1), (f e2); reflexivity.
Qed.

(** X15: whatever order the range statement visits the entries in, the
    count, the shelf and every order are the same at the end. *)
Lemma range_any_order {F : Type} `{Float64 F} (s : Shelf) (w : World F) (now : Time)
  (l : list (string * addr)) :
  l ≡ₚ map_to_list (Orders s) ->
  (range l now (0%Z, s) w).1 = (range (map_to_list (Orders s)) now (0%Z, s) w).1 /\
  forall a, store (range l now (0%Z, s) w).2 a =
            store (range (map_to_list (Orders s)) now (0%Z, s) w).2 a.
Proof.
  intros Hp.
  set (ex := fun a => IsExpired (store w a) now).
  destruct (range_spec now ex l 0 s w)
    as (s1 & w1 & -> & Hm1 & Hs1 & _ & Ht1 & Hc1 & Hst1 & _).
  { reflexivity. }
  { rewrite Hp. apply NoDup_fst_map_to_list. }
  { intros id p Hin. apply elem_of_map_to_list. by rewrite <- Hp. }
  destruct (range_spec now ex (map_to_list (Orders s)) 0 s w)
    as (s2 & w2 & -> & Hm2 & Hs2 & _ & Ht2 & Hc2 & Hst2 & _).
  { reflexivity. }
  { apply NoDup_fst_map_to_list. }
  { intros id p. apply elem_of_map_to_list. }
  simpl. split.
  - rewrite (expired_count_perm ex _ _ Hp) in *. f_equal.
    assert (Ho : Orders s1 = Orders s2).
    { apply map_eq. intros id. rewrite Hm1, Hm2. unfold expired_key.
      by rewrite (existsb_perm _ _ _ Hp). }
    destruct s1, s2; simpl in *. congruence.
  - intros a. rewrite Hs1, Hs2. unfold expired_addr. by rewrite (existsb_perm _ _ _ Hp).
Qed.

(** ** The tests of shelf_test.go and shelf_manager_test.go *)

Example TestShelf_AddOrder :
  let r := AddOrder (NewShelf HotShelf 2) 1 (kitchen (F:=float)) in
  r.1.1 = true /\ Size r.1.2 = 1%Z /\ CurrentShelfType (store r.2 1) = "hot".
Proof. vm_compute. repeat split; reflexivity. Qed.

Example TestShelf_IsFull :
  let r := AddOrder (NewShelf ColdShelf 1) 2 (kitchen (F:=float)) in
  IsFull r.1.2 = true /\ (AddOrder r.1.2 3 r.2).1.1 = false.
Proof. vm_compute. split; reflexivity. Qed.

Example TestShelf_RemoveOrder :
  let r := AddOrder (NewShelf FrozenShelf 2) 3 (kitchen (F:=float)) in
  (RemoveOrder r.1.2 "3" r.2).1.1 = Some 3 /\ Size (RemoveOrder r.1.2 "3" r.2).1.2 = 0%Z.
Proof. vm_compute. split; reflexivity. Qed.

Example TestShelf_MarkOrderDelivered :
  let r := AddOrder (NewShelf HotShelf 2) 1 (kitchen (F:=float)) in
  (MarkOrderDelivered r.1.2 "1" r.2).1.1 = true /\
  Size (MarkOrderDelivered r.1.2 "1" r.2).1.2 = 0%Z /\
  IsZero (DeliveredAt (store (MarkOrderDelivered r.1.2 "1" r.2).2 1)) = false.
Proof. vm_compute. repeat split; reflexivity. Qed.

Example TestShelf_RemoveExpiredOrders :
  let r := AddOrder (NewShelf OverflowShelf 2) 8 (kitchen (F:=float)) in
  (RemoveExpiredOrders r.1.2 r.2).1.1 = 1%Z /\ Size (RemoveExpiredOrders r.1.2 r.2).1.2 = 0%Z.
Proof. vm_compute. split; reflexivity. Qed.

Example TestShelfManager_OverflowHandling :
  let sm := (run (NewShelfManager 1 1 1 1) [OpPlace 1; OpPlace 4; OpPlace 5]
               (kitchen (F:=float))).1 in
  TotalOrdersReceived sm = 3%Z /\ TotalOrdersWasted sm = 1%Z.
Proof. vm_compute. split; reflexivity. Qed.

Example TestShelfManager_PlaceOrder :
  let sm := (run (NewShelfManager 1 1 1 2)
               [OpPlace 1; OpPlace 2; OpPlace 3; OpPlace 4; OpPlace 5; OpPlace 6]
               (kitchen (F:=float))).1 in
  TotalOrdersReceived sm = 6%Z /\ TotalOrdersWasted sm = 1%Z.
Proof. vm_compute. split; reflexivity. Qed.

Example TestShelfManager_DeliverOrder :
  let r := run (NewShelfManager 2 2 2 2) [OpPlace 1; OpPlace 2; OpPlace 3]
             (kitchen (F:=float)) in
  (DeliverOrder r.1 "4" r.2).1.1 = false /\
  TotalOrdersDelivered
    (run r.1 [OpDeliver "1"; OpDeliver "2"; OpDeliver "3"; OpDeliver "4"] r.2).1 = 3%Z.
Proof. vm_compute. split; reflexivity. Qed.

(** ** Witnesses and failing runs *)

Lemma capacity_bound_witness :
  exists s' w',
    add_all (NewShelf HotShelf 2) ([1; 4] ++ [5]) (kitchen (F:=float)) =
      (replicate 2 true ++ [false], s', w') /\
    Size s' = 2%Z.
Proof.
  refine (proj2 (proj2 (capacity_bound HotShelf 2)) [1; 4] 5 kitchen _ _).
  - reflexivity.
  - apply (bool_decide_unpack _). vm_compute. exact I.
Defined.

(** C2 fails as stated: AddOrder of an order whose identifier is a key of
    the shelf replaces that entry. On a shelf of capacity 2 three
    consecutive AddOrder calls of the order "1" succeed, and the occupancy
    is 1. *)
Lemma capacity_run_with_equal_IDs :
  (add_all (NewShelf HotShelf 2) [1; 1; 1] (kitchen (F:=float))).1.1 = [true; true; true] /\
  Size (add_all (NewShelf HotShelf 2) [1; 1; 1] (kitchen (F:=float))).1.2 = 1%Z.
Proof. split; vm_compute; reflexivity. Qed.

Lemma reconciliation_witness :
  reconciled
    (run (NewShelfManager 1 1 1 2)
       (take 8 [OpPlace 1; OpPlace 2; OpPlace 3; OpPlace 4; OpPlace 5; OpPlace 6;
                OpDeliver "1"; OpSweep])
       (kitchen (F:=float))).1.
Proof.
  refine (reconciliation 1 1 1 2 _ kitchen _ 8).
  vm_compute. repeat split.
Defined.

(** C3 fails as stated: placing the order "1" twice on a manager whose hot
    shelf has room for two leaves one entry on the shelves and counts two
    orders received. *)
Lemma reconciliation_fails_on_replacement :
  TotalOrdersReceived
    (run (NewShelfManager 2 1 1 1) [OpPlace 1; OpPlace 1] (kitchen (F:=float))).1 = 2%Z /\
  TotalOrdersDelivered
    (run (NewShelfManager 2 1 1 1) [OpPlace 1; OpPlace 1] (kitchen (F:=float))).1 = 0%Z /\
  TotalOrdersWasted
    (run (NewShelfManager 2 1 1 1) [OpPlace 1; OpPlace 1] (kitchen (F:=float))).1 = 0%Z /\
  TotalOrdersExpired
    (run (NewShelfManager 2 1 1 1) [OpPlace 1; OpPlace 1] (kitchen (F:=float))).1 = 0%Z /\
  occupancy
    (run (NewShelfManager 2 1 1 1) [OpPlace 1; OpPlace 1] (kitchen (F:=float))).1 = 1%Z.
Proof. vm_compute. repeat split; reflexivity. Qed.

(** After the orders "1", "2" and "3" have been placed, at the readings
    T0, T0 + 1 s and T0 + 2 s: the order "4" is on no shelf, and the order
    "2" is delivered from the cold shelf at the reading T0 + 3 s. *)
Lemma DeliverOrder_first_holder_witness :
  DeliverOrder
    (run (NewShelfManager 2 2 2 2) [OpPlace 1; OpPlace 2; OpPlace 3] (kitchen (F:=float))).1
    "4"
    (run (NewShelfManager 2 2 2 2) [OpPlace 1; OpPlace 2; OpPlace 3] (kitchen (F:=float))).2
  = (false,
     (run (NewShelfManager 2 2 2 2) [OpPlace 1; OpPlace 2; OpPlace 3] (kitchen (F:=float))).1,
     (run (NewShelfManager 2 2 2 2) [OpPlace 1; OpPlace 2; OpPlace 3] (kitchen (F:=float))).2)
  /\
  exists sm' w',
    DeliverOrder
      (run (NewShelfManager 2 2 2 2) [OpPlace 1; OpPlace 2; OpPlace 3] (kitchen (F:=float))).1
      "2"
      (run (NewShelfManager 2 2 2 2) [OpPlace 1; OpPlace 2; OpPlace 3] (kitchen (F:=float))).2
    = (true, sm', w') /\
    Orders (sm_ColdShelf sm') !! "2" = None /\
    DeliveredAt (store w' 2) = (T0 + sec 3)%Z /\
    TotalOrdersDelivered sm' = 1%Z.
Proof.
  split.
  - refine (proj1 (DeliverOrder_first_holder _ "4" _) _).
    intros []; vm_compute; reflexivity.
  - destruct
      (proj2
         (DeliverOrder_first_holder
            (run (NewShelfManager 2 2 2 2) [OpPlace 1; OpPlace 2; OpPlace 3]
               (kitchen (F:=float))).1
            "2"
            (run (NewShelfManager 2 2 2 2) [OpPlace 1; OpPlace 2; OpPlace 3]
               (kitchen (F:=float))).2)
         coldShelf 2)
      as (sm' & w' & E & Ho & _ & _ & _ & _ & Hd & _ & _ & _ & Ht & _).
    + vm_compute. reflexivity.
    + intros [] Hlt; simpl in Hlt; try lia. vm_compute. reflexivity.
    + exists sm', w'. split; [exact E|]. split; [|split].
      * change (sm_ColdShelf sm') with (shelf_at sm' coldShelf). rewrite Ho.
        apply lookup_delete_eq.
      * rewrite Ht. vm_compute. reflexivity.
      * rewrite Hd. vm_compute. reflexivity.
Defined.

(** An order whose temperature has no shelf: the call fails and counts the
    order as wasted, and nothing else happens. *)
Lemma PlaceOrder_unrecognized {F : Type} `{Float64 F} (sm : ShelfManager) (a : addr)
  (w : World F) :
  GetShelfForTemperature (Temp (store w a)) = None ->
  PlaceOrder sm a w = (false, incr_Wasted (incr_Received sm), w).
Proof. intros Hn. unfold PlaceOrder, bind, deref, ret. by rewrite Hn. Qed.

(** C4, the code at the failing input: the order "7" has temperature
    "invalid"; PlaceOrder returns false and counts it as wasted, and its
    wasted timestamp is still the zero Time. On the path of capacity
    exhaustion (order "5", after "1" and "4" have filled the hot and the
    overflow shelf) the wasted timestamp is the reading of the clock. *)
Theorem PlaceOrder_invalid_temperature_no_WastedAt :
  Temp (store (kitchen (F:=float)) 7) = "invalid" /\
  (PlaceOrder (NewShelfManager 1 1 1 1) 7 (kitchen (F:=float))).1.1 = false /\
  TotalOrdersWasted (PlaceOrder (NewShelfManager 1 1 1 1) 7 (kitchen (F:=float))).1.2 = 1%Z /\
  WastedAt (store (PlaceOrder (NewShelfManager 1 1 1 1) 7 (kitchen (F:=float))).2 7) = 0%Z /\
  (PlaceOrder
     (run (NewShelfManager 1 1 1 1) [OpPlace 1; OpPlace 4] (kitchen (F:=float))).1 5
     (run (NewShelfManager 1 1 1 1) [OpPlace 1; OpPlace 4] (kitchen (F:=float))).2).1.1 = false /\
  WastedAt
    (store
       (PlaceOrder
          (run (NewShelfManager 1 1 1 1) [OpPlace 1; OpPlace 4] (kitchen (F:=float))).1 5
          (run (NewShelfManager 1 1 1 1) [OpPlace 1; OpPlace 4] (kitchen (F:=float))).2).2
       5) = (T0 + sec 4)%Z.
Proof.
  split; [reflexivity|].
  rewrite PlaceOrder_unrecognized by reflexivity.
  repeat split; vm_compute; reflexivity.
Qed.

(** AddOrder alone keeps an overflow-placement time that is set. *)
Lemma AddOrder_keeps_PlacedOnOverflow {F : Type} `{Float64 F} (s : Shelf) (a b : addr)
  (w : World F) :
  IsZero (PlacedOnOverflow (store w b)) = false ->
  PlacedOnOverflow (store (AddOrder s a w).2 b) = PlacedOnOverflow (store w b).
Proof.
  intros Hb.
  destruct (Z.leb_spec (Capacity s) (len (Orders s))) as [Hfull|Hroom].
  - by rewrite (AddOrder_full _ _ _ Hfull).
  - destruct (AddOrder_room s a w Hroom)
      as (st' & w' & -> & _ & _ & _ & _ & _ & _ & _ & _ & _ & Hov & _).
    simpl. by apply Hov.
Qed.

(** C5, the code at the failing input: on a manager of capacities
    1, 1, 1, 2 the hot order "1" fills the hot shelf and the hot order "4"
    goes to overflow. AddOrder stamps its overflow-placement time with one
    reading of the clock (T0 + 2 s) and PlaceOrder overwrites it with the
    next (T0 + 3 s); and when "4" has been delivered and is placed again,
    PlaceOrder overwrites the time once more (T0 + 5 s). *)
Theorem PlaceOrder_overwrites_PlacedOnOverflow :
  PlacedOnOverflow
    (store
       (AddOrder
          (sm_OverflowShelf (run (NewShelfManager 1 1 1 2) [OpPlace 1] (kitchen (F:=float))).1)
          4 (run (NewShelfManager 1 1 1 2) [OpPlace 1] (kitchen (F:=float))).2).2
       4) = (T0 + sec 2)%Z /\
  PlacedOnOverflow
    (store (run (NewShelfManager 1 1 1 2) [OpPlace 1; OpPlace 4] (kitchen (F:=float))).2 4)
  = (T0 + sec 3)%Z /\
  PlacedOnOverflow
    (store
       (run (NewShelfManager 1 1 1 2) [OpPlace 1; OpPlace 4; OpDeliver "4"; OpPlace 4]
          (kitchen (F:=float))).2 4)
  = (T0 + sec 5)%Z.
Proof. repeat split; vm_compute; reflexivity. Qed.

(** * Further properties *)

(** ** Orders *)

Lemma Sub_nonneg (t u : Time) : (u <= t)%Z -> (0 <= Sub t u)%Z.
Proof.
  intros. unfold Sub.
  destruct (Z.ltb_spec (t - u) minDuration), (Z.ltb_spec maxDuration (t - u));
    unfold minDuration, maxDuration in *; lia.
Qed.

Lemma Seconds_nonneg (d : Duration) : (0 <= d)%Z -> (0 <= Seconds (F:=Q) d)%Q.
Proof.
  intros Hd. assert (E : (Seconds (F:=Q) 0 == 0)%Q) by reflexivity.
  rewrite <- E. by apply Seconds_mono.
Qed.

Lemma decay_nonneg (o : Order Q) (now : Time) :
  (0 <= DecayRate o)%Q -> after_placement o now -> (0 <= decay o now)%Q.
Proof.
  unfold after_placement, decay. intros HR Ha.
  destruct (IsZero (PlacedOnOverflow o)).
  - pose proof (Seconds_nonneg _ (Sub_nonneg _ _ Ha)). nra.
  - destruct Ha as [H1 H2].
    pose proof (Seconds_nonneg _ (Sub_nonneg _ _ H1)).
    pose proof (Seconds_nonneg _ (Sub_nonneg _ _ H2)). nra.
Qed.

(** X1: in exact arithmetic an order of positive shelf life never has a
    negative value, and when its decay rate is not negative and [now] is
    not before its placements the value is at most 1. *)
Theorem CalculateValue_bounds (o : Order Q) (now : Time) :
  (0 < ShelfLife o)%Q ->
  (0 <= CalculateValue o now)%Q /\
  ((0 <= DecayRate o)%Q -> after_placement o now -> (CalculateValue o now <= 1)%Q).
Proof.
  intros HL.
  destruct (IsZero (PlacedOnShelfAt o)) eqn:Hp.
  { rewrite (CalculateValue_unplaced o now Hp). change (f_int 1) with 1%Q.
    split; [lra|intros; lra]. }
  rewrite (CalculateValue_placed o now Hp). split.
  - apply Qle_shift_div_l; [done|]. pose proof (Q.le_max_l 0 (ShelfLife o - decay o now)). lra.
  - intros HR Ha. pose proof (decay_nonneg o now HR Ha).
    apply Qle_shift_div_r; [done|].
    apply Q.max_lub; lra.
Qed.

Lemma Qmax0_mono (x y : Q) : (x <= y)%Q -> (Qmax 0 x <= Qmax 0 y)%Q.
Proof. intros. apply Q.max_le_compat_l. done. Qed.

(** X2: in exact arithmetic the value of an order of positive shelf life
    and non-negative decay rate does not grow with time. *)
Theorem CalculateValue_antitone (o : Order Q) (t1 t2 : Time) :
  (0 < ShelfLife o)%Q -> (0 <= DecayRate o)%Q -> (t1 <= t2)%Z ->
  (CalculateValue o t2 <= CalculateValue o t1)%Q.
Proof.
  intros HL HR Ht.
  destruct (IsZero (PlacedOnShelfAt o)) eqn:Hp.
  { rewrite !(CalculateValue_unplaced o _ Hp). change (f_int 1) with 1%Q. lra. }
  rewrite !(CalculateValue_placed o _ Hp).
  pose proof (decay_mono o t1 t2 HR Ht).
  unfold Qdiv. apply Qmult_le_compat_r.
  - apply Qmax0_mono. lra.
  - apply Qlt_le_weak, Qinv_lt_0_compat, HL.
Qed.

(** X4: in exact arithmetic CalculateValueV2 is never above CalculateValue,
    for a positive shelf life, a non-negative decay rate and a [now] not
    before the placements. *)
Theorem CalculateValueV2_le (o : Order Q) (now : Time) :
  (0 < ShelfLife o)%Q -> (0 <= DecayRate o)%Q -> after_placement o now ->
  (CalculateValueV2 o now <= CalculateValue o now)%Q.
Proof.
  intros HL HR Ha.
  destruct (IsZero (PlacedOnShelfAt o)) eqn:Hp.
  { unfold CalculateValueV2. rewrite Hp, (CalculateValue_unplaced o now Hp).
    change (f_int 1) with 1%Q. lra. }
  rewrite (CalculateValueV2_placed o now Hp), (CalculateValue_placed o now Hp).
  cbv zeta. unfold decay, after_placement in *.
  unfold Qdiv. apply Qmult_le_compat_r;
    [|apply Qlt_le_weak, Qinv_lt_0_compat, HL].
  apply Q.max_le_compat_l.
  destruct (IsZero (PlacedOnOverflow o)).
  - pose proof (Seconds_nonneg _ (Sub_nonneg _ _ Ha)). nra.
  - destruct Ha as [H1 H2].
    pose proof (Seconds_nonneg _ (Sub_nonneg _ _ H1)).
    pose proof (Seconds_nonneg _ (Sub_nonneg _ _ H2)). nra.
Qed.

Lemma wrap64_inj (x y : Z) : wrap64 x = wrap64 y <-> ((x - y) mod 2 ^ 64 = 0)%Z.
Proof.
  unfold wrap64. rewrite <- Z.cong_iff_0. split.
  - intros E.
    assert (E' : ((x + 2 ^ 63) mod 2 ^ 64 = (y + 2 ^ 63) mod 2 ^ 64)%Z) by lia.
    apply Z.cong_iff_0 in E'. apply Z.cong_iff_0.
    by replace (x - y)%Z with (x + 2 ^ 63 - (y + 2 ^ 63))%Z by lia.
  - intros E. apply Z.cong_iff_0 in E.
    assert (E' : ((x + 2 ^ 63) mod 2 ^ 64 = (y + 2 ^ 63) mod 2 ^ 64)%Z).
    { apply Z.cong_iff_0. by replace (x + 2 ^ 63 - (y + 2 ^ 63))%Z with (x - y)%Z by lia. }
    lia.
Qed.

Lemma wrap64_in_range (x : Z) : in_range x -> wrap64 x = x.
Proof.
  unfold in_range, minDuration, maxDuration, wrap64. intros Hx.
  rewrite Z.mod_small by lia. lia.
Qed.

Section NewOrderFacts.
Context {F : Type} `{Float64 F}.

(** X5: the ID of a new order is its name, a dash and the Unix nanoseconds
    of the first reading of the clock. Two orders of one name get the same
    ID exactly when these readings agree modulo 2^64 ns, which for readings
    whose Unix nanoseconds fit an int64 is when they are equal. *)
Theorem NewOrder_ID (name : string) (temp temp' : Temperature) (l r l' r' : F)
  (w w' : World F) :
  let t := clock w (ticks w) in
  let t' := clock w' (ticks w') in
  (ID (NewOrder name temp l r w).1 = ID (NewOrder name temp' l' r' w').1 <->
   ((t - t') mod 2 ^ 64 = 0)%Z) /\
  (in_range (t - unixEpoch) -> in_range (t' - unixEpoch) ->
   (ID (NewOrder name temp l r w).1 = ID (NewOrder name temp' l' r' w').1 <-> t = t')) /\
  ID (NewOrder name temp l r w).1 = name +:+ "-" +:+ pretty (UnixNano t).
Proof.
  intros t t'.
  assert (E0 : ID (NewOrder name temp l r w).1 = ID (NewOrder name temp' l' r' w').1 <->
               UnixNano t = UnixNano t').
  { unfold NewOrder, bind, time_Now, ret. simpl. fold t t'. split.
    - intros E. apply (inj (String.append name)) in E.
      apply (inj (String.append "-")) in E. by apply (inj pretty) in E.
    - by intros ->. }
  split; [|split; [|reflexivity]].
  - rewrite E0. unfold UnixNano. rewrite wrap64_inj.
    by replace (t - unixEpoch - (t' - unixEpoch))%Z with (t - t')%Z by lia.
  - intros Ht Ht'. rewrite E0. unfold UnixNano.
    rewrite (wrap64_in_range _ Ht), (wrap64_in_range _ Ht'). lia.
Qed.
End NewOrderFacts.

(** X6: a new order is unplaced: both value functions give 1 at every
    instant and, in binary64 and in exact arithmetic, it is not expired,
    whatever its shelf life and decay rate. NewOrder reads the clock twice
    and CreatedAt is the second reading. *)
Theorem NewOrder_unplaced :
  (forall (F : Type) `{Float64 F} name temp (l r : F) (w : World F) now,
     let o := (NewOrder name temp l r w).1 in
     CalculateValue o now = f_int 1 /\ CalculateValueV2 o now = f_int 1 /\
     CreatedAt o = clock w (S (ticks w)) /\
     ticks (NewOrder name temp l r w).2 = S (S (ticks w)) /\
     store (NewOrder name temp l r w).2 = store w) /\
  (forall name temp l r (w : World float) now,
     IsExpired (NewOrder name temp l r w).1 now = false) /\
  (forall name temp l r (w : World Q) now,
     IsExpired (NewOrder name temp l r w).1 now = false).
Proof. split; [|split]; intros; repeat split. Qed.

(** ** Shelves *)

Section ShelfProperties.
Context {F : Type} `{Float64 F}.
Implicit Types (s : Shelf) (w : World F) (a b : addr).

(** AddOrder on a shelf with room, in full. *)
Lemma AddOrder_result s a w :
  (len (Orders s) < Capacity s)%Z ->
  let o := store w a in
  let first := IsZero (PlacedOnShelfAt o) in
  let second := String.eqb (Type_ s) OverflowShelf && IsZero (PlacedOnOverflow o) in
  let orders := <[ID o := a]> (Orders s) in
  exists w',
    AddOrder s a w =
      (true,
       mkShelf (Type_ s) (Capacity s)
         (mkStats (OrdersAdded (stats s) + 1) (OrdersRemoved (stats s))
                  (OrdersWasted (stats s)) (OrdersDelivered (stats s))
                  (Z.max (PeakUsage (stats s)) (len orders)))
         orders,
       w') /\
    store w' a =
      mkOrder (ID o) (Name o) (Temp o) (ShelfLife o) (DecayRate o) (CreatedAt o)
        (if first then clock w (ticks w) else PlacedOnShelfAt o)
        (if second then clock w (ticks w + if first then 1 else 0) else PlacedOnOverflow o)
        (Type_ s) (WastedAt o) (DeliveredAt o) /\
    (forall b, b <> a -> store w' b = store w b) /\
    clock w' = clock w /\
    ticks w' = ticks w + (if first then 1 else 0) + (if second then 1 else 0).
Proof.
  intros Hc o first second orders. subst o first second orders. unfold AddOrder.
  destruct (Z.leb_spec (Capacity s) (len (Orders s))); [lia|].
  unfold_M.
  assert (Hpeak : forall p l : Z, (if (p <? l)%Z then l else p) = Z.max p l).
  { intros p l. destruct (Z.ltb_spec p l); lia. }
  destruct (IsZero (PlacedOnShelfAt (store w a))) eqn:Hp;
    destruct (String.eqb (Type_ s) OverflowShelf) eqn:Ht; simpl;
    rewrite ?Nat.eqb_refl; simpl;
    try (destruct (IsZero (PlacedOnOverflow (store w a))) eqn:Ho; simpl);
    rewrite ?Nat.eqb_refl; simpl; rewrite Hpeak;
    (eexists; split; [reflexivity|]; simpl; rewrite ?Nat.eqb_refl;
     split; [rewrite ?Nat.add_0_r, ?Nat.add_1_r; reflexivity|];
     split; [intros b Hb; destruct (Nat.eqb_spec b a); congruence|];
     split; [reflexivity|lia]).
Qed.

Lemma len_insert_ge (m : gmap string addr) i x : (len m <= len (<[i:=x]> m))%Z.
Proof. unfold len. rewrite map_size_insert. destruct (m !! i); simpl; lia. Qed.

(** X7: AddOrder returns true exactly when the shelf was not full, and on
    a full shelf it changes neither the shelf nor any order nor the clock. *)
Theorem AddOrder_iff_not_full s a w :
  (AddOrder s a w).1.1 = negb (IsFull s) /\
  (IsFull s = true -> AddOrder s a w = (false, s, w)).
Proof.
  unfold IsFull.
  destruct (Z.leb_spec (Capacity s) (len (Orders s))) as [Hfull|Hroom].
  - by rewrite (AddOrder_full _ _ _ Hfull).
  - destruct (AddOrder_result s a w Hroom) as (w' & -> & _). by split.
Qed.

(** X8: AddOrder on a shelf with room stores the order under its ID and
    leaves the other keys; the occupancy grows by one unless the ID was a
    key already; the order gets the shelf's type, and the reading of the
    clock as placement time if it had none; no other order changes;
    OrdersAdded grows by one and PeakUsage is the maximum of its old value
    and the new occupancy. *)
Theorem AddOrder_places_order s a w :
  (Size s < Capacity s)%Z ->
  let id := ID (store w a) in
  let s' := (AddOrder s a w).1.2 in
  let w' := (AddOrder s a w).2 in
  (AddOrder s a w).1.1 = true /\
  GetOrder s' id = Some a /\
  (forall id', id' <> id -> GetOrder s' id' = GetOrder s id') /\
  Size s' = (if GetOrder s id is Some _ then Size s else Size s + 1)%Z /\
  CurrentShelfType (store w' a) = Type_ s /\
  PlacedOnShelfAt (store w' a) =
    (if IsZero (PlacedOnShelfAt (store w a)) then clock w (ticks w)
     else PlacedOnShelfAt (store w a)) /\
  (forall b, b <> a -> store w' b = store w b) /\
  OrdersAdded (stats s') = (OrdersAdded (stats s) + 1)%Z /\
  PeakUsage (stats s') = Z.max (PeakUsage (stats s)) (Size s').
Proof.
  intros Hc id s' w'. subst id s' w'.
  destruct (AddOrder_result s a w Hc) as (w' & -> & Ha & Hb & _). simpl.
  rewrite Ha. simpl. unfold GetOrder, Size. simpl.
  split; [reflexivity|]. split; [apply lookup_insert_eq|].
  split; [intros id' Hne; by apply lookup_insert_ne|].
  split; [|repeat split; exact Hb].
  unfold len. rewrite map_size_insert. destruct (Orders s !! ID (store w a)); simpl; lia.
Qed.

(** X9: AddOrder leaves the ID, name, temperature, shelf life, decay rate,
    creation, wasted and delivered times of every order, and never
    overwrites a placement time or an overflow-placement time that is set. *)
Theorem AddOrder_never_resets s a b w :
  let o := store w b in
  let o' := store (AddOrder s a w).2 b in
  ID o' = ID o /\ Name o' = Name o /\ Temp o' = Temp o /\
  ShelfLife o' = ShelfLife o /\ DecayRate o' = DecayRate o /\ CreatedAt o' = CreatedAt o /\
  WastedAt o' = WastedAt o /\ DeliveredAt o' = DeliveredAt o /\
  (IsZero (PlacedOnShelfAt o) = false -> PlacedOnShelfAt o' = PlacedOnShelfAt o) /\
  (IsZero (PlacedOnOverflow o) = false -> PlacedOnOverflow o' = PlacedOnOverflow o).
Proof.
  intros o o'. subst o o'.
  destruct (Z.leb_spec (Capacity s) (len (Orders s))) as [Hfull|Hroom].
  { rewrite (AddOrder_full _ _ _ Hfull). simpl. repeat split. }
  destruct (AddOrder_result s a w Hroom) as (w' & -> & Ha & Hb & _). simpl.
  destruct (Nat.eq_dec b a) as [->|Hne].
  - rewrite Ha. simpl. repeat split.
    + by intros ->.
    + intros ->. by rewrite andb_false_r.
  - rewrite (Hb b Hne). repeat split.
Qed.

(** X10: on a shelf with room that does not hold the order's ID, AddOrder
    and then RemoveOrder of that ID returns the order and the entries are
    what they were; OrdersAdded and OrdersRemoved have each grown by one. *)
Theorem AddOrder_RemoveOrder_round_trip s a w :
  (Size s < Capacity s)%Z ->
  GetOrder s (ID (store w a)) = None ->
  let s1 := (AddOrder s a w).1.2 in
  let w1 := (AddOrder s a w).2 in
  let r := RemoveOrder s1 (ID (store w a)) w1 in
  r.1.1 = Some a /\ Orders r.1.2 = Orders s /\ Size r.1.2 = Size s /\ r.2 = w1 /\
  OrdersAdded (stats r.1.2) = (OrdersAdded (stats s) + 1)%Z /\
  OrdersRemoved (stats r.1.2) = (OrdersRemoved (stats s) + 1)%Z.
Proof.
  intros Hc Hfresh s1 w1 r. subst s1 w1 r. unfold GetOrder in Hfresh.
  destruct (AddOrder_result s a w Hc) as (w' & -> & _). simpl.
  unfold RemoveOrder. simpl. rewrite lookup_insert_eq. unfold ret. simpl.
  unfold Size. simpl. rewrite !delete_insert_id by done. repeat split.
Qed.

Lemma shelf_step_consistent s op w :
  stats_consistent s -> stats_consistent (shelf_step s op w).1.2.
Proof.
  unfold stats_consistent, Size.
  intros ((H0 & H1) & H2 & H3 & H4 & (H5 & H6) & H7).
  destruct op as [a|id|id|]; simpl; unfold bind.
  - destruct (Z.leb_spec (Capacity s) (len (Orders s))) as [Hfull|Hroom].
    { rewrite (AddOrder_full _ _ _ Hfull). simpl. lia. }
    destruct (AddOrder_result s a w Hroom) as (w' & -> & _). simpl.
    pose proof (len_insert_le (Orders s) (ID (store w a)) a).
    pose proof (len_insert_ge (Orders s) (ID (store w a)) a). lia.
  - unfold RemoveOrder. destruct (Orders s !! id) as [a|] eqn:E; unfold ret; simpl.
    + pose proof (len_nonneg (delete id (Orders s))) as Hn.
      rewrite (len_delete_Some _ _ _ E) in *. lia.
    + lia.
  - unfold MarkOrderDelivered. destruct (Orders s !! id) as [a|] eqn:E; unfold_M; simpl.
    + pose proof (len_nonneg (delete id (Orders s))) as Hn.
      rewrite (len_delete_Some _ _ _ E) in *. lia.
    + lia.
  - destruct (RemoveExpiredOrders_spec s w)
      as (n & s' & w' & E & _ & _ & Hn & Hpos & _ & Hc & Hst & _).
    rewrite E. simpl. rewrite Hc, Hst. simpl.
    pose proof (len_nonneg (Orders s')). lia.
Qed.

(** X11: after any sequence of AddOrder, RemoveOrder, MarkOrderDelivered
    and RemoveExpiredOrders calls on a new shelf:
    0 <= occupancy <= PeakUsage <= OrdersAdded, PeakUsage <= Capacity,
    occupancy + OrdersRemoved + OrdersWasted <= OrdersAdded and
    0 <= OrdersDelivered <= OrdersRemoved. *)
Theorem shelf_stats_consistent (kind : ShelfType) (C : nat) (ops : list ShelfOp) w :
  stats_consistent (shelf_run (NewShelf kind (Z.of_nat C)) ops 0 w).1.2.
Proof.
  assert (Hgen : forall ops s r w,
            stats_consistent s -> stats_consistent (shelf_run s ops r w).1.2).
  { clear. induction ops as [|op ops IH]; intros s r w Hs; simpl; [done|].
    unfold bind. pose proof (shelf_step_consistent s op w Hs) as Hstep.
    destruct (shelf_step s op w) as [[b s1] w1]. by apply IH. }
  apply Hgen. unfold stats_consistent, Size, len. simpl. rewrite map_size_empty. lia.
Qed.

(** X12: the sweep of a shelf takes one reading [now] of the clock. The
    entries it leaves are entries the shelf had, and none of their orders
    is expired at [now]; an entry whose order is not expired stays and its
    order is unchanged; an entry whose order is expired goes and its order
    gets [now] as wasted time. *)
Theorem RemoveExpiredOrders_leaves_none_expired s w :
  let now := clock w (ticks w) in
  let s' := (RemoveExpiredOrders s w).1.2 in
  let w' := (RemoveExpiredOrders s w).2 in
  (forall id a, GetOrder s' id = Some a ->
     GetOrder s id = Some a /\ IsExpired (store w' a) now = false) /\
  (forall id a, GetOrder s id = Some a -> IsExpired (store w a) now = false ->
     GetOrder s' id = Some a /\ store w' a = store w a) /\
  (forall id a, GetOrder s id = Some a -> IsExpired (store w a) now = true ->
     GetOrder s' id = None /\ WastedAt (store w' a) = now).
Proof.
  intros now s' w'. subst s' w'. unfold GetOrder.
  destruct (RemoveExpiredOrders_spec s w)
    as (n & s' & w' & -> & Hm & Hs & _). fold now in Hm, Hs. simpl.
  split; [|split].
  - intros id a Ha. rewrite Hm in Ha. apply map_lookup_filter_Some in Ha as [Ha He].
    split; [done|]. simpl in He. rewrite Hs.
    by destruct (expired_on s w now a).
  - intros id a Ha He. split.
    + rewrite Hm. by apply map_lookup_filter_Some.
    + rewrite Hs. destruct (expired_on s w now a) eqn:E; [|done].
      apply expired_on_spec in E as (? & _ & E). congruence.
  - intros id a Ha He. split.
    + rewrite Hm. apply map_lookup_filter_None. right. intros a' Ha'. simpl.
      rewrite Ha in Ha'. injection Ha' as <-. congruence.
    + rewrite Hs. assert (E : expired_on s w now a = true) by (apply expired_on_spec; eauto).
      by rewrite E.
Qed.

(** X13: MarkOrderDelivered of an ID the shelf holds returns true, removes
    the entry and stamps the order with the reading of the clock; a second
    MarkOrderDelivered, or a RemoveOrder, of that ID then changes nothing
    and reports failure. *)
Theorem MarkOrderDelivered_once s id a w :
  GetOrder s id = Some a ->
  let r := MarkOrderDelivered s id w in
  r.1.1 = true /\ GetOrder r.1.2 id = None /\ Size r.1.2 = (Size s - 1)%Z /\
  DeliveredAt (store r.2 a) = clock w (ticks w) /\
  MarkOrderDelivered r.1.2 id r.2 = (false, r.1.2, r.2) /\
  RemoveOrder r.1.2 id r.2 = (None, r.1.2, r.2).
Proof.
  intros Ha r. subst r. unfold GetOrder in Ha.
  assert (E : MarkOrderDelivered s id w =
              (true,
               mkShelf (Type_ s) (Capacity s)
                 (mkStats (OrdersAdded (stats s)) (OrdersRemoved (stats s) + 1)
                    (OrdersWasted (stats s)) (OrdersDelivered (stats s) + 1)
                    (PeakUsage (stats s)))
                 (delete id (Orders s)),
               mkWorld (fun b => if Nat.eqb b a
                                 then set_DeliveredAt (clock w (ticks w)) (store w b)
                                 else store w b)
                       (clock w) (S (ticks w)))).
  { unfold MarkOrderDelivered. rewrite Ha. reflexivity. }
  rewrite E. simpl.
  unfold MarkOrderDelivered, RemoveOrder, GetOrder, Size. simpl.
  rewrite !lookup_delete_eq, Nat.eqb_refl. simpl.
  rewrite (len_delete_Some _ _ _ Ha). repeat split.
Qed.
End ShelfProperties.

(** X14: GetAllOrders of a shelf lists as many orders as the shelf holds,
    namely those stored under some key; GetAllOrders of the manager lists
    as many as the four occupancies together, namely those of some shelf. *)
Theorem GetAllOrders_resident (s : Shelf) (sm : ShelfManager) :
  Z.of_nat (length (GetAllOrders s)) = Size s /\
  (forall a, a ∈ GetAllOrders s <-> exists id, GetOrder s id = Some a) /\
  Z.of_nat (length (sm_GetAllOrders sm)) = occupancy sm /\
  (forall a, a ∈ sm_GetAllOrders sm <-> exists r id, GetOrder (shelf_at sm r) id = Some a).
Proof.
  assert (Hlen : forall s, Z.of_nat (length (GetAllOrders s)) = Size s).
  { intros s0. unfold GetAllOrders, Size, len. by rewrite length_fmap, length_map_to_list. }
  assert (Hin : forall s a, a ∈ GetAllOrders s <-> exists id, GetOrder s id = Some a).
  { intros s0 a. unfold GetAllOrders, GetOrder. rewrite list_elem_of_fmap. split.
    - intros ([id a'] & -> & Hin). exists id. by apply elem_of_map_to_list.
    - intros (id & Hid). exists (id, a). split; [done|]. by apply elem_of_map_to_list. }
  split; [apply Hlen|]. split; [apply Hin|]. split.
  - unfold sm_GetAllOrders, occupancy. rewrite !length_app, !Nat2Z.inj_add, !Hlen. lia.
  - intros a. unfold sm_GetAllOrders. rewrite !elem_of_app, !Hin. split.
    + intros [?|[?|[?|?]]]; [exists hotShelf|exists coldShelf|exists frozenShelf|exists overflowShelf];
        done.
    + intros ([] & Hr); simpl in Hr; tauto.
Qed.

(** ** The shelf manager *)

Section ManagerInvariants.
Context {F : Type} `{Float64 F}.
Implicit Types (s : Shelf) (w : World F) (a b : addr) (sm : ShelfManager).

Lemma GetShelfForTemperature_Some temp r :
  GetShelfForTemperature temp = Some r <-> r <> overflowShelf /\ shelf_type r = temp.
Proof.
  unfold GetShelfForTemperature, Hot, Cold, Frozen.
  destruct (String.eqb_spec temp "hot") as [->|H1].
  { split; [by intros [= <-]|]. intros [? E]. by destruct r. }
  destruct (String.eqb_spec temp "cold") as [->|H2].
  { split; [by intros [= <-]|]. intros [? E]. by destruct r. }
  destruct (String.eqb_spec temp "frozen") as [->|H3].
  { split; [by intros [= <-]|]. intros [? E]. by destruct r. }
  split; [done|]. intros [? E]. destruct r; cbv in E; congruence.
Qed.

Lemma shelf_at_set_shelf_eq sm r s : shelf_at (set_shelf sm r s) r = s.
Proof. by destruct r. Qed.

Lemma shelf_at_set_shelf_ne sm r r' s : r' <> r -> shelf_at (set_shelf sm r s) r' = shelf_at sm r'.
Proof. by destruct r, r'. Qed.

(** PlaceOrder when the primary shelf has room: the AddOrder on it. *)
Lemma PlaceOrder_primary sm a w r :
  GetShelfForTemperature (Temp (store w a)) = Some r ->
  (len (Orders (shelf_at sm r)) < Capacity (shelf_at sm r))%Z ->
  PlaceOrder sm a w =
    (true, set_shelf (incr_Received sm) r (AddOrder (shelf_at sm r) a w).1.2,
     (AddOrder (shelf_at sm r) a w).2).
Proof.
  intros Hr Hroom. unfold PlaceOrder. unfold bind at 1. unfold deref. rewrite Hr.
  unfold bind at 1.
  assert (E : shelf_at (incr_Received sm) r = shelf_at sm r) by (by destruct r).
  rewrite E.
  destruct (AddOrder_result (shelf_at sm r) a w Hroom) as (w' & -> & _). reflexivity.
Qed.

(** PlaceOrder when the primary shelf is full and overflow has room. *)
Lemma PlaceOrder_overflow sm a w r :
  GetShelfForTemperature (Temp (store w a)) = Some r ->
  (Capacity (shelf_at sm r) <= len (Orders (shelf_at sm r)))%Z ->
  (len (Orders (sm_OverflowShelf sm)) < Capacity (sm_OverflowShelf sm))%Z ->
  let w1 := (AddOrder (sm_OverflowShelf sm) a w).2 in
  PlaceOrder sm a w =
    (true, set_shelf (incr_Received sm) overflowShelf (AddOrder (sm_OverflowShelf sm) a w).1.2,
     mkWorld (fun b => if Nat.eqb b a
                       then set_PlacedOnOverflow (clock w1 (ticks w1)) (store w1 b)
                       else store w1 b)
             (clock w1) (S (ticks w1))).
Proof.
  intros Hr Hfull Hroom w1. subst w1.
  unfold PlaceOrder. unfold bind at 1. unfold deref. rewrite Hr.
  unfold bind at 1.
  assert (E : shelf_at (incr_Received sm) r = shelf_at sm r) by (by destruct r).
  rewrite E, (AddOrder_full _ _ _ Hfull).
  assert (Hs : set_shelf (incr_Received sm) r (shelf_at sm r) = incr_Received sm)
    by (destruct r, sm; reflexivity).
  rewrite Hs. unfold bind at 1.
  change (sm_OverflowShelf (incr_Received sm)) with (sm_OverflowShelf sm).
  destruct (AddOrder_result (sm_OverflowShelf sm) a w Hroom) as (w' & -> & _).
  reflexivity.
Qed.

(** PlaceOrder when the primary shelf and overflow are full. *)
Lemma PlaceOrder_full sm a w r :
  GetShelfForTemperature (Temp (store w a)) = Some r ->
  (Capacity (shelf_at sm r) <= len (Orders (shelf_at sm r)))%Z ->
  (Capacity (sm_OverflowShelf sm) <= len (Orders (sm_OverflowShelf sm)))%Z ->
  PlaceOrder sm a w =
    (false, incr_Wasted (incr_Received sm),
     mkWorld (fun b => if Nat.eqb b a
                       then set_WastedAt (clock w (ticks w)) (store w b)
                       else store w b)
             (clock w) (S (ticks w))).
Proof.
  intros Hr Hfull Hfull'.
  unfold PlaceOrder. unfold bind at 1. unfold deref. rewrite Hr.
  unfold bind at 1.
  assert (E : shelf_at (incr_Received sm) r = shelf_at sm r) by (by destruct r).
  rewrite E, (AddOrder_full _ _ _ Hfull).
  assert (Hs : set_shelf (incr_Received sm) r (shelf_at sm r) = incr_Received sm)
    by (destruct r, sm; reflexivity).
  rewrite Hs. unfold bind at 1.
  change (sm_OverflowShelf (incr_Received sm)) with (sm_OverflowShelf sm).
  rewrite (AddOrder_full _ _ _ Hfull').
  assert (Hs' : set_shelf (incr_Received sm) overflowShelf (sm_OverflowShelf sm)
                = incr_Received sm) by (destruct sm; reflexivity).
  rewrite Hs'. reflexivity.
Qed.

Lemma MarkOrderDelivered_result s id a w :
  Orders s !! id = Some a ->
  MarkOrderDelivered s id w =
    (true,
     mkShelf (Type_ s) (Capacity s)
       (mkStats (OrdersAdded (stats s)) (OrdersRemoved (stats s) + 1)
          (OrdersWasted (stats s)) (OrdersDelivered (stats s) + 1)
          (PeakUsage (stats s)))
       (delete id (Orders s)),
     mkWorld (fun b => if Nat.eqb b a
                       then set_DeliveredAt (clock w (ticks w)) (store w b)
                       else store w b)
             (clock w) (S (ticks w))).
Proof. intros Ha. unfold MarkOrderDelivered. rewrite Ha. reflexivity. Qed.

Lemma DeliverOrder_result sm id w r a :
  Orders (shelf_at sm r) !! id = Some a ->
  (forall r', index r' < index r -> Orders (shelf_at sm r') !! id = None) ->
  DeliverOrder sm id w =
    (true,
     incr_Delivered (set_shelf sm r (MarkOrderDelivered (shelf_at sm r) id w).1.2),
     (MarkOrderDelivered (shelf_at sm r) id w).2).
Proof.
  intros Ha Hfirst.
  assert (H1 : index hotShelf < index r -> Orders (sm_HotShelf sm) !! id = None)
    by apply (Hfirst hotShelf).
  assert (H2 : index coldShelf < index r -> Orders (sm_ColdShelf sm) !! id = None)
    by apply (Hfirst coldShelf).
  assert (H3 : index frozenShelf < index r -> Orders (sm_FrozenShelf sm) !! id = None)
    by apply (Hfirst frozenShelf).
  clear Hfirst.
  rewrite (MarkOrderDelivered_result _ _ _ _ Ha).
  unfold DeliverOrder, orElse, deliverFromShelf, GetOrder, MarkOrderDelivered, bind, ret.
  destruct r; simpl in *;
    rewrite ?H1, ?H2, ?H3 by lia; simpl; rewrite Ha; simpl;
    unfold bind, ret, time_Now, assign; simpl; reflexivity.
Qed.

Lemma sm_RemoveExpiredOrders_result sm w :
  let r1 := RemoveExpiredOrders (sm_HotShelf sm) w in
  let r2 := RemoveExpiredOrders (sm_ColdShelf sm) r1.2 in
  let r3 := RemoveExpiredOrders (sm_FrozenShelf sm) r2.2 in
  let r4 := RemoveExpiredOrders (sm_OverflowShelf sm) r3.2 in
  let n := (0 + r1.1.1 + r2.1.1 + r3.1.1 + r4.1.1)%Z in
  sm_RemoveExpiredOrders sm w =
    (n,
     mkManager r1.1.2 r2.1.2 r3.1.2 r4.1.2 (TotalOrdersReceived sm)
       (TotalOrdersDelivered sm) (TotalOrdersExpired sm + n) (TotalOrdersWasted sm),
     r4.2).
Proof.
  unfold sm_RemoveExpiredOrders. unfold bind at 1.
  destruct (RemoveExpiredOrders (sm_HotShelf sm) w) as [[n1 s1] w1]. simpl.
  unfold bind at 1.
  destruct (RemoveExpiredOrders (sm_ColdShelf sm) w1) as [[n2 s2] w2]. simpl.
  unfold bind at 1.
  destruct (RemoveExpiredOrders (sm_FrozenShelf sm) w2) as [[n3 s3] w3]. simpl.
  unfold bind at 1.
  destruct (RemoveExpiredOrders (sm_OverflowShelf sm) w3) as [[n4 s4] w4]. simpl.
  reflexivity.
Qed.

(** What a sweep of one shelf keeps of the shelf and of the orders. *)
Lemma RemoveExpiredOrders_frame s w :
  let r := RemoveExpiredOrders s w in
  (forall id a, Orders r.1.2 !! id = Some a -> Orders s !! id = Some a) /\
  (forall b, set_WastedAt 0 (store r.2 b) = set_WastedAt 0 (store w b)) /\
  Type_ r.1.2 = Type_ s /\ Capacity r.1.2 = Capacity s /\
  OrdersAdded (stats r.1.2) = OrdersAdded (stats s) /\
  OrdersRemoved (stats r.1.2) = OrdersRemoved (stats s) /\
  OrdersDelivered (stats r.1.2) = OrdersDelivered (stats s) /\
  OrdersWasted (stats r.1.2) = (OrdersWasted (stats s) + r.1.1)%Z /\
  clock r.2 = clock w.
Proof.
  intros r. subst r.
  destruct (RemoveExpiredOrders_spec s w)
    as (n & s' & w' & -> & Hm & Hs & _ & _ & Ht & Hc & Hst & Hk & _). simpl.
  rewrite Hst. simpl. split; [|split; [|repeat split; done]].
  - intros id a. rewrite Hm. intros Ha. by apply map_lookup_filter_Some in Ha as [Ha _].
  - intros b. rewrite Hs. by destruct (expired_on _ _ _ _).
Qed.

(** The invariant looks at the entries of the shelves and, of the orders,
    at no field but the five that no delivery and no sweep writes. *)
Lemma resident_orders_mono sm sm' w w' :
  (forall r id a, Orders (shelf_at sm' r) !! id = Some a ->
                  Orders (shelf_at sm r) !! id = Some a) ->
  (forall b, set_WastedAt 0 (set_DeliveredAt 0 (store w' b)) =
             set_WastedAt 0 (set_DeliveredAt 0 (store w b))) ->
  (keyed_by_ID sm w -> keyed_by_ID sm' w') /\
  (placement_stamped sm w -> placement_stamped sm' w').
Proof.
  intros Hsub Hw.
  assert (E1 : forall b, ID (store w' b) = ID (store w b))
    by (intros b; apply (f_equal ID (Hw b))).
  assert (E2 : forall b, Temp (store w' b) = Temp (store w b))
    by (intros b; apply (f_equal Temp (Hw b))).
  assert (E3 : forall b, CurrentShelfType (store w' b) = CurrentShelfType (store w b))
    by (intros b; apply (f_equal CurrentShelfType (Hw b))).
  assert (E4 : forall b, PlacedOnShelfAt (store w' b) = PlacedOnShelfAt (store w b))
    by (intros b; apply (f_equal PlacedOnShelfAt (Hw b))).
  assert (E5 : forall b, PlacedOnOverflow (store w' b) = PlacedOnOverflow (store w b))
    by (intros b; apply (f_equal PlacedOnOverflow (Hw b))).
  split; intros Hk r id a Ha; apply Hsub in Ha; specialize (Hk r id a Ha).
  - by rewrite E1, E2, E3.
  - by rewrite E4, E5.
Qed.

Lemma shelf_at_incr_Received sm r : shelf_at (incr_Received sm) r = shelf_at sm r.
Proof. by destruct r. Qed.

Lemma shelf_at_incr_Wasted sm r : shelf_at (incr_Wasted sm) r = shelf_at sm r.
Proof. by destruct r. Qed.

Lemma shelf_at_incr_Delivered sm r : shelf_at (incr_Delivered sm) r = shelf_at sm r.
Proof. by destruct r. Qed.

Lemma shelf_at_set_shelf sm r r' s :
  shelf_at (set_shelf sm r s) r' = s /\ r' = r \/
  shelf_at (set_shelf sm r s) r' = shelf_at sm r' /\ r' <> r.
Proof. destruct r, r'; simpl; (by left) || (by right). Qed.

(** The invariant after an accepted AddOrder on shelf [r] for a PlaceOrder
    that leaves the world [w']. *)
Lemma add_manager_inv cap clk sm r p a w w' :
  manager_inv cap clk sm w ->
  GetShelfForTemperature (Temp (store w a)) = Some p -> r = p \/ r = overflowShelf ->
  (len (Orders (shelf_at sm r)) < Capacity (shelf_at sm r))%Z ->
  (forall b, b <> a -> store w' b = store w b) ->
  ID (store w' a) = ID (store w a) -> Temp (store w' a) = Temp (store w a) ->
  CurrentShelfType (store w' a) = Type_ (shelf_at sm r) ->
  clock w' = clock w ->
  ((forall n, IsZero (clock w n) = false) ->
   IsZero (PlacedOnShelfAt (store w' a)) = false /\
   (r = overflowShelf -> IsZero (PlacedOnOverflow (store w' a)) = false) /\
   (IsZero (PlacedOnOverflow (store w a)) = false ->
    IsZero (PlacedOnOverflow (store w' a)) = false)) ->
  manager_inv cap clk (set_shelf (incr_Received sm) r (AddOrder (shelf_at sm r) a w).1.2) w'.
Proof.
  intros (Hsh & Hag & Hk & Hck & Hp) Hp' Hr Hroom Hframe HID HTemp HCur Hclock Hstamp.
  pose proof (shelf_step_consistent (shelf_at sm r) (SAdd a) w (proj2 (proj2 (Hsh r)))) as Hcons.
  simpl in Hcons. unfold bind in Hcons.
  destruct (AddOrder_result (shelf_at sm r) a w Hroom) as (w1 & E & _).
  rewrite E in *. simpl in Hcons. simpl.
  set (s1 := mkShelf _ _ _ _) in *.
  assert (Hty : Type_ (shelf_at sm r) = shelf_type r) by apply Hsh.
  assert (Hcur : CurrentShelfType (store w' a) = Temp (store w' a) \/
                 CurrentShelfType (store w' a) = OverflowShelf).
  { rewrite HCur, Hty, HTemp. destruct Hr as [->| ->]; [left|by right].
    by apply GetShelfForTemperature_Some in Hp' as [_ ->]. }
  assert (Hold : forall r' id b, Orders (shelf_at sm r') !! id = Some b ->
            ID (store w' b) = id /\
            (exists q, GetShelfForTemperature (Temp (store w' b)) = Some q /\
                       (r' = q \/ r' = overflowShelf)) /\
            (CurrentShelfType (store w' b) = Temp (store w' b) \/
             CurrentShelfType (store w' b) = OverflowShelf)).
  { intros r' id b Hb. destruct (Hk r' id b Hb) as (K1 & K2 & K3).
    destruct (Nat.eq_dec b a) as [->|Hne].
    - rewrite HID, HTemp. split; [done|]. split; [done|]. by rewrite <- HTemp.
    - by rewrite (Hframe b Hne). }
  assert (Hnew : forall id b, Orders s1 !! id = Some b ->
            (id = ID (store w a) /\ b = a) \/ Orders (shelf_at sm r) !! id = Some b).
  { intros id b. unfold s1. simpl. intros Hb.
    apply lookup_insert_Some in Hb as [[<- <-]|[_ Hb]]; [by left|by right]. }
  split; [|split; [|split; [|split]]].
  - intros r'.
    destruct (shelf_at_set_shelf (incr_Received sm) r r' s1) as [[-> ->]|[-> Hne]].
    + split; [exact Hty|]. split; [apply Hsh|exact Hcons].
    + rewrite shelf_at_incr_Received. apply Hsh.
  - unfold counters_agree, sum_stats in *. destruct r; simpl in *; lia.
  - intros r' id b.
    destruct (shelf_at_set_shelf (incr_Received sm) r r' s1) as [[-> ->]|[-> Hne]].
    + unfold GetOrder. intros Hb. apply Hnew in Hb as [[-> ->]|Hb]; [|by apply (Hold r _ _ Hb)].
      split; [done|]. split; [|done]. exists p. by rewrite HTemp.
    + rewrite shelf_at_incr_Received. apply Hold.
  - by rewrite Hclock.
  - intros Hc. specialize (Hp Hc). rewrite <- Hck in Hc.
    destruct (Hstamp Hc) as (S1 & S2 & S3).
    assert (Hold' : forall r' id b, Orders (shelf_at sm r') !! id = Some b ->
              IsZero (PlacedOnShelfAt (store w' b)) = false /\
              (r' = overflowShelf -> IsZero (PlacedOnOverflow (store w' b)) = false)).
    { intros r' id b Hb. destruct (Hp r' id b Hb) as (P1 & P2).
      destruct (Nat.eq_dec b a) as [->|Hne]; [|by rewrite (Hframe b Hne)].
      split; [done|]. intros Hv. apply S3, P2, Hv. }
    intros r' id b.
    destruct (shelf_at_set_shelf (incr_Received sm) r r' s1) as [[-> ->]|[-> Hne]].
    + unfold GetOrder. intros Hb. apply Hnew in Hb as [[-> ->]|Hb]; [|by apply (Hold' r _ _ Hb)].
      by split.
    + rewrite shelf_at_incr_Received. apply Hold'.
Qed.

Lemma counters_manager_inv cap clk sm sm' w w' :
  manager_inv cap clk sm w ->
  (forall r, shelf_at sm' r = shelf_at sm r) ->
  counters_agree sm' ->
  (forall b, set_WastedAt 0 (set_DeliveredAt 0 (store w' b)) =
             set_WastedAt 0 (set_DeliveredAt 0 (store w b))) ->
  clock w' = clock w ->
  manager_inv cap clk sm' w'.
Proof.
  intros (Hsh & Hag & Hk & Hck & Hp) Heq Hag' Hw Hclock.
  destruct (resident_orders_mono sm sm' w w') as [M1 M2]; [|exact Hw|].
  { intros r id a. by rewrite Heq. }
  split; [|split; [|split; [|split]]].
  - intros r. rewrite Heq. apply Hsh.
  - exact Hag'.
  - by apply M1.
  - by rewrite Hclock.
  - intros Hc. by apply M2, Hp.
Qed.

Lemma PlaceOrder_manager_inv cap clk sm a w :
  manager_inv cap clk sm w ->
  manager_inv cap clk (PlaceOrder sm a w).1.2 (PlaceOrder sm a w).2 /\
  TotalOrdersReceived (PlaceOrder sm a w).1.2 = (TotalOrdersReceived sm + 1)%Z.
Proof.
  intros Hinv. pose proof Hinv as (Hsh & Hag & Hk & Hck & Hp).
  destruct (GetShelfForTemperature (Temp (store w a))) as [p|] eqn:Hp'.
  2:{ rewrite (PlaceOrder_unrecognized sm a w Hp'). simpl. split; [|done].
      apply (counters_manager_inv cap clk sm _ w _ Hinv); [by intros []| |done|done].
      unfold counters_agree, sum_stats in *. simpl. lia. }
  pose proof (proj1 (GetShelfForTemperature_Some _ _) Hp') as [Hprim Htemp].
  destruct (Z.leb_spec (Capacity (shelf_at sm p)) (len (Orders (shelf_at sm p))))
    as [Hfull|Hroom].
  2:{ rewrite (PlaceOrder_primary sm a w p Hp' Hroom). simpl.
      split; [|by destruct p].
      destruct (AddOrder_result (shelf_at sm p) a w Hroom) as (w1 & E & Ha & Hb & Hc & _).
      assert (Hty : String.eqb (Type_ (shelf_at sm p)) OverflowShelf = false).
      { rewrite (proj1 (Hsh p)). by destruct p. }
      rewrite Hty in Ha. simpl in Ha.
      apply (add_manager_inv cap clk sm p p a w); try done; try (by left);
        rewrite E; simpl; try done; try (by rewrite Ha).
      intros Hclk. rewrite Ha. simpl. split; [|split; [done|done]].
      destruct (IsZero (PlacedOnShelfAt (store w a))) eqn:Hz; [apply Hclk|done]. }
  destruct (Z.leb_spec (Capacity (sm_OverflowShelf sm)) (len (Orders (sm_OverflowShelf sm))))
    as [Hfull'|Hroom'].
  { rewrite (PlaceOrder_full sm a w p Hp' Hfull Hfull'). simpl. split; [|done].
    apply (counters_manager_inv cap clk sm _ w _ Hinv); [by intros []| | |done].
    - unfold counters_agree, sum_stats in *. simpl. lia.
    - intros b. simpl. by destruct (Nat.eqb b a). }
  rewrite (PlaceOrder_overflow sm a w p Hp' Hfull Hroom'). simpl. split; [|done].
  destruct (AddOrder_result (sm_OverflowShelf sm) a w Hroom') as (w1 & E & Ha & Hb & Hc & _).
  apply (add_manager_inv cap clk sm overflowShelf p a w); try done; try (by right);
    rewrite E; simpl; rewrite ?Nat.eqb_refl; try done; try (by rewrite Ha).
  - intros b Hne. destruct (Nat.eqb_spec b a); [done|]. by apply Hb.
  - intros Hclk. rewrite Ha, Hc. simpl. split; [|split; intros _; apply Hclk].
    destruct (IsZero (PlacedOnShelfAt (store w a))) eqn:Hz; [apply Hclk|done].
Qed.

Lemma DeliverOrder_manager_inv cap clk sm id w :
  manager_inv cap clk sm w ->
  manager_inv cap clk (DeliverOrder sm id w).1.2 (DeliverOrder sm id w).2 /\
  TotalOrdersReceived (DeliverOrder sm id w).1.2 = TotalOrdersReceived sm.
Proof.
  intros Hinv. pose proof Hinv as (Hsh & Hag & Hk & Hck & Hp).
  destruct (first_holder sm id) as [Hn|(r & a & Ha & Hf)].
  { by rewrite (DeliverOrder_absent sm id w Hn). }
  rewrite (DeliverOrder_result sm id w r a Ha Hf).
  pose proof (shelf_step_consistent (shelf_at sm r) (SDeliver id) w
                (proj2 (proj2 (Hsh r)))) as Hcons.
  simpl in Hcons.
  rewrite (MarkOrderDelivered_result _ _ _ _ Ha) in *. simpl in *.
  set (s1 := mkShelf _ _ _ _) in *.
  split; [|by destruct r].
  destruct (resident_orders_mono sm (incr_Delivered (set_shelf sm r s1)) w
              (mkWorld (fun b => if Nat.eqb b a
                                 then set_DeliveredAt (clock w (ticks w)) (store w b)
                                 else store w b) (clock w) (S (ticks w)))) as [M1 M2].
  { intros r' id' b. rewrite shelf_at_incr_Delivered.
    destruct (shelf_at_set_shelf sm r r' s1) as [[-> ->]|[-> Hne]]; [|done].
    unfold s1. simpl. intros Hb. by apply lookup_delete_Some in Hb as [_ Hb]. }
  { intros b. simpl. by destruct (Nat.eqb b a). }
  split; [|split; [|split; [|split]]].
  - intros r'. rewrite shelf_at_incr_Delivered.
    destruct (shelf_at_set_shelf sm r r' s1) as [[-> ->]|[-> Hne]]; [|apply Hsh].
    split; [apply Hsh|]. split; [apply Hsh|exact Hcons].
  - unfold counters_agree, sum_stats in *. destruct r; simpl in *; lia.
  - by apply M1.
  - done.
  - intros Hc. by apply M2, Hp.
Qed.

Lemma sweep_manager_inv cap clk sm w :
  manager_inv cap clk sm w ->
  manager_inv cap clk (sm_RemoveExpiredOrders sm w).1.2 (sm_RemoveExpiredOrders sm w).2 /\
  TotalOrdersReceived (sm_RemoveExpiredOrders sm w).1.2 = TotalOrdersReceived sm.
Proof.
  intros Hinv. pose proof Hinv as (Hsh & Hag & Hk & Hck & Hp).
  rewrite sm_RemoveExpiredOrders_result. cbv zeta. simpl.
  set (r1 := RemoveExpiredOrders (sm_HotShelf sm) w).
  set (r2 := RemoveExpiredOrders (sm_ColdShelf sm) r1.2).
  set (r3 := RemoveExpiredOrders (sm_FrozenShelf sm) r2.2).
  set (r4 := RemoveExpiredOrders (sm_OverflowShelf sm) r3.2).
  destruct (RemoveExpiredOrders_frame (sm_HotShelf sm) w)
    as (A1 & B1 & T1 & C1 & SA1 & SR1 & SD1 & SW1 & K1).
  destruct (RemoveExpiredOrders_frame (sm_ColdShelf sm) r1.2)
    as (A2 & B2 & T2 & C2 & SA2 & SR2 & SD2 & SW2 & K2).
  destruct (RemoveExpiredOrders_frame (sm_FrozenShelf sm) r2.2)
    as (A3 & B3 & T3 & C3 & SA3 & SR3 & SD3 & SW3 & K3).
  destruct (RemoveExpiredOrders_frame (sm_OverflowShelf sm) r3.2)
    as (A4 & B4 & T4 & C4 & SA4 & SR4 & SD4 & SW4 & K4).
  fold r1 in A1, B1, T1, C1, SA1, SR1, SD1, SW1, K1, A2, B2, T2, C2, SA2, SR2, SD2, SW2, K2.
  fold r2 in A2, B2, T2, C2, SA2, SR2, SD2, SW2, K2, A3, B3, T3, C3, SA3, SR3, SD3, SW3, K3.
  fold r3 in A3, B3, T3, C3, SA3, SR3, SD3, SW3, K3, A4, B4, T4, C4, SA4, SR4, SD4, SW4, K4.
  fold r4 in A4, B4, T4, C4, SA4, SR4, SD4, SW4, K4.
  pose proof (shelf_step_consistent (sm_HotShelf sm) SSweep w
                (proj2 (proj2 (Hsh hotShelf)))) as H1.
  pose proof (shelf_step_consistent (sm_ColdShelf sm) SSweep r1.2
                (proj2 (proj2 (Hsh coldShelf)))) as H2.
  pose proof (shelf_step_consistent (sm_FrozenShelf sm) SSweep r2.2
                (proj2 (proj2 (Hsh frozenShelf)))) as H3.
  pose proof (shelf_step_consistent (sm_OverflowShelf sm) SSweep r3.2
                (proj2 (proj2 (Hsh overflowShelf)))) as H4.
  assert (Hst : forall s w0, (shelf_step s SSweep w0).1.2 = (RemoveExpiredOrders s w0).1.2).
  { intros s w0. simpl. unfold bind. by destruct (RemoveExpiredOrders s w0) as [[? ?] ?]. }
  rewrite Hst in H1, H2, H3, H4. fold r1 in H1. fold r2 in H2. fold r3 in H3. fold r4 in H4.
  split; [|done].
  set (sm' := mkManager _ _ _ _ _ _ _ _).
  destruct (resident_orders_mono sm sm' w r4.2) as [M1 M2].
  { intros []; simpl; [apply A1|apply A2|apply A3|apply A4]. }
  { intros b.
    change (set_DeliveredAt 0 (set_WastedAt 0 (store r4.2 b)) =
            set_DeliveredAt 0 (set_WastedAt 0 (store w b))).
    by rewrite B4, B3, B2, B1. }
  split; [|split; [|split; [|split]]].
  - intros []; simpl.
    + rewrite T1, C1. split; [apply (Hsh hotShelf)|]. split; [apply (Hsh hotShelf)|done].
    + rewrite T2, C2. split; [apply (Hsh coldShelf)|]. split; [apply (Hsh coldShelf)|done].
    + rewrite T3, C3. split; [apply (Hsh frozenShelf)|]. split; [apply (Hsh frozenShelf)|done].
    + rewrite T4, C4. split; [apply (Hsh overflowShelf)|].
      split; [apply (Hsh overflowShelf)|done].
  - unfold counters_agree, sum_stats in *. simpl. lia.
  - by apply M1.
  - by rewrite K4, K3, K2, K1.
  - intros Hc. by apply M2, Hp.
Qed.

Lemma step_manager_inv cap clk sm op w :
  manager_inv cap clk sm w ->
  manager_inv cap clk (step sm op w).1 (step sm op w).2 /\
  TotalOrdersReceived (step sm op w).1 = (TotalOrdersReceived sm + placements [op])%Z.
Proof.
  intros Hinv. destruct op as [a|id|]; simpl; unfold bind.
  - pose proof (PlaceOrder_manager_inv cap clk sm a w Hinv) as Hs.
    destruct (PlaceOrder sm a w) as [[? ?] ?]. exact Hs.
  - pose proof (DeliverOrder_manager_inv cap clk sm id w Hinv) as [Hs E].
    destruct (DeliverOrder sm id w) as [[? ?] ?]. simpl in *. split; [done|lia].
  - pose proof (sweep_manager_inv cap clk sm w Hinv) as [Hs E].
    destruct (sm_RemoveExpiredOrders sm w) as [[? ?] ?]. simpl in *. split; [done|lia].
Qed.

Lemma run_manager_inv cap clk ops : forall sm w,
  manager_inv cap clk sm w ->
  manager_inv cap clk (run sm ops w).1 (run sm ops w).2 /\
  TotalOrdersReceived (run sm ops w).1 = (TotalOrdersReceived sm + placements ops)%Z.
Proof.
  induction ops as [|op ops IH]; intros sm w Hinv.
  { simpl. split; [done|lia]. }
  destruct (step_manager_inv cap clk sm op w Hinv) as [Hs E].
  simpl run. unfold bind. destruct (step sm op w) as [sm1 w1]. simpl in Hs, E.
  destruct (IH _ _ Hs) as [Hr E']. split; [done|].
  rewrite E', E. destruct op; simpl; lia.
Qed.

Lemma NewShelfManager_inv (hot cold frozen overflow : nat) w :
  manager_inv (fun r => Capacity (shelf_at (NewShelfManager (Z.of_nat hot) (Z.of_nat cold)
                                             (Z.of_nat frozen) (Z.of_nat overflow)) r))
    (clock w)
    (NewShelfManager (Z.of_nat hot) (Z.of_nat cold) (Z.of_nat frozen) (Z.of_nat overflow)) w.
Proof.
  split; [|split; [|split; [|split]]].
  - intros r. split; [by destruct r|]. split; [done|].
    unfold stats_consistent, Size, len. destruct r; simpl; rewrite map_size_empty; lia.
  - unfold counters_agree, sum_stats. simpl. lia.
  - intros [] id a; unfold GetOrder; simpl; by rewrite lookup_empty.
  - done.
  - intros _ [] id a; unfold GetOrder; simpl; by rewrite lookup_empty.
Qed.

(** X16: GetShelfForTemperature returns the shelf of the manager whose
    type is the temperature, never the overflow shelf, and nil exactly for
    a temperature other than hot, cold and frozen. *)
Theorem GetShelfForTemperature_primary_shelf (temp : Temperature) (hot cold frozen overflow : Z) :
  (forall r, GetShelfForTemperature temp = Some r <->
             r <> overflowShelf /\
             Type_ (shelf_at (NewShelfManager hot cold frozen overflow) r) = temp) /\
  (GetShelfForTemperature temp = None <-> temp <> Hot /\ temp <> Cold /\ temp <> Frozen).
Proof.
  split.
  - intros r. rewrite GetShelfForTemperature_Some. by destruct r.
  - unfold GetShelfForTemperature.
    destruct (String.eqb_spec temp Hot); [split; [done|tauto]|].
    destruct (String.eqb_spec temp Cold); [split; [done|tauto]|].
    destruct (String.eqb_spec temp Frozen); [split; [done|tauto]|]. tauto.
Qed.

(** X17: PlaceOrder returns true exactly when the temperature is known and
    the primary shelf or the overflow shelf is not full. It always counts
    the order as received, counts it as wasted exactly when it returns
    false, and then leaves every shelf as it was. *)
Theorem PlaceOrder_accepts_iff_room sm a w :
  let r := PlaceOrder sm a w in
  r.1.1 = match GetShelfForTemperature (Temp (store w a)) with
          | Some p => negb (IsFull (shelf_at sm p)) || negb (IsFull (sm_OverflowShelf sm))
          | None => false
          end /\
  TotalOrdersReceived r.1.2 = (TotalOrdersReceived sm + 1)%Z /\
  TotalOrdersWasted r.1.2 = (TotalOrdersWasted sm + if r.1.1 then 0 else 1)%Z /\
  TotalOrdersDelivered r.1.2 = TotalOrdersDelivered sm /\
  TotalOrdersExpired r.1.2 = TotalOrdersExpired sm /\
  (r.1.1 = false -> forall q, shelf_at r.1.2 q = shelf_at sm q).
Proof.
  intros r. subst r. unfold IsFull.
  destruct (GetShelfForTemperature (Temp (store w a))) as [p|] eqn:Hp.
  2:{ rewrite (PlaceOrder_unrecognized sm a w Hp). simpl.
      repeat split; try done; try (by intros _ []); try (by intros []); try (by destruct p);
      try (destruct p; simpl; lia); try lia. }
  destruct (Z.leb_spec (Capacity (shelf_at sm p)) (len (Orders (shelf_at sm p))))
    as [Hfull|Hroom].
  2:{ rewrite (PlaceOrder_primary sm a w p Hp Hroom). simpl.
      repeat split; try done; try (by intros _ []); try (by intros []); try (by destruct p);
      try (destruct p; simpl; lia); try lia. }
  destruct (Z.leb_spec (Capacity (sm_OverflowShelf sm)) (len (Orders (sm_OverflowShelf sm))))
    as [Hfull'|Hroom'].
  - rewrite (PlaceOrder_full sm a w p Hp Hfull Hfull'). simpl.
    repeat split; try done; try (by intros _ []); try (by intros []); try (by destruct p);
      try (destruct p; simpl; lia); try lia.
  - rewrite (PlaceOrder_overflow sm a w p Hp Hfull Hroom'). simpl.
    repeat split; try done; try (by intros _ []); try (by intros []); try (by destruct p);
      try (destruct p; simpl; lia); try lia.
Qed.

(** X18: when the primary shelf has room PlaceOrder is AddOrder on that
    shelf: the order is stored there under its ID with the shelf's type,
    and the other three shelves, overflow among them, are untouched. *)
Theorem PlaceOrder_on_primary sm a w p :
  GetShelfForTemperature (Temp (store w a)) = Some p ->
  IsFull (shelf_at sm p) = false ->
  let r := PlaceOrder sm a w in
  r.1.1 = true /\
  shelf_at r.1.2 p = (AddOrder (shelf_at sm p) a w).1.2 /\
  r.2 = (AddOrder (shelf_at sm p) a w).2 /\
  GetOrder (shelf_at r.1.2 p) (ID (store w a)) = Some a /\
  (forall q, q <> p -> shelf_at r.1.2 q = shelf_at sm q) /\
  CurrentShelfType (store r.2 a) = Type_ (shelf_at sm p).
Proof.
  intros Hp Hroom r. subst r. unfold IsFull in Hroom. apply Z.leb_gt in Hroom.
  rewrite (PlaceOrder_primary sm a w p Hp Hroom). simpl.
  rewrite shelf_at_set_shelf_eq.
  destruct (AddOrder_result (shelf_at sm p) a w Hroom) as (w1 & -> & Ha & _). simpl.
  rewrite Ha. simpl. unfold GetOrder. simpl. rewrite lookup_insert_eq.
  repeat split. intros q Hq. rewrite shelf_at_set_shelf_ne by done.
  apply shelf_at_incr_Received.
Qed.

(** X19: when the primary shelf is full and overflow has room, PlaceOrder
    is AddOrder on the overflow shelf followed by a stamp: the order is
    stored on overflow under its ID, the three primary shelves are
    untouched, the placement time is kept or set to the first reading, the
    overflow-placement time is the last reading of the call, and no other
    order changes. *)
Theorem PlaceOrder_on_overflow sm a w p :
  GetShelfForTemperature (Temp (store w a)) = Some p ->
  IsFull (shelf_at sm p) = true ->
  IsFull (sm_OverflowShelf sm) = false ->
  let r := PlaceOrder sm a w in
  r.1.1 = true /\
  sm_OverflowShelf r.1.2 = (AddOrder (sm_OverflowShelf sm) a w).1.2 /\
  GetOrder (sm_OverflowShelf r.1.2) (ID (store w a)) = Some a /\
  (forall q, q <> overflowShelf -> shelf_at r.1.2 q = shelf_at sm q) /\
  CurrentShelfType (store r.2 a) = Type_ (sm_OverflowShelf sm) /\
  PlacedOnShelfAt (store r.2 a) =
    (if IsZero (PlacedOnShelfAt (store w a)) then clock w (ticks w)
     else PlacedOnShelfAt (store w a)) /\
  PlacedOnOverflow (store r.2 a) = clock w (ticks r.2 - 1) /\
  (forall b, b <> a -> store r.2 b = store w b).
Proof.
  intros Hp Hfull Hroom r. subst r. unfold IsFull in *.
  apply Z.leb_le in Hfull. apply Z.leb_gt in Hroom.
  rewrite (PlaceOrder_overflow sm a w p Hp Hfull Hroom). simpl.
  destruct (AddOrder_result (sm_OverflowShelf sm) a w Hroom) as (w1 & -> & Ha & Hb & Hc & _).
  simpl. rewrite Nat.eqb_refl, Ha, Hc, Nat.sub_0_r. simpl.
  unfold GetOrder. simpl. rewrite lookup_insert_eq.
  repeat split.
  - by intros [].
  - intros b Hne. destruct (Nat.eqb_spec b a); [done|]. by apply Hb.
Qed.

(** X20: when the primary shelf and the overflow shelf are full, PlaceOrder
    returns false, changes no shelf, reads the clock once, and the order's
    WastedAt is that reading while its other fields and the other orders
    are what they were; the order is counted as wasted. *)
Theorem PlaceOrder_rejected_when_full sm a w p :
  GetShelfForTemperature (Temp (store w a)) = Some p ->
  IsFull (shelf_at sm p) = true ->
  IsFull (sm_OverflowShelf sm) = true ->
  let r := PlaceOrder sm a w in
  r.1.1 = false /\
  (forall q, shelf_at r.1.2 q = shelf_at sm q) /\
  store r.2 a = set_WastedAt (clock w (ticks w)) (store w a) /\
  (forall b, b <> a -> store r.2 b = store w b) /\
  ticks r.2 = S (ticks w) /\
  TotalOrdersWasted r.1.2 = (TotalOrdersWasted sm + 1)%Z /\
  WastedAt (store r.2 a) = clock w (ticks w) /\
  ID (store r.2 a) = ID (store w a) /\
  Name (store r.2 a) = Name (store w a) /\
  Temp (store r.2 a) = Temp (store w a) /\
  ShelfLife (store r.2 a) = ShelfLife (store w a) /\
  DecayRate (store r.2 a) = DecayRate (store w a) /\
  CreatedAt (store r.2 a) = CreatedAt (store w a) /\
  PlacedOnShelfAt (store r.2 a) = PlacedOnShelfAt (store w a) /\
  PlacedOnOverflow (store r.2 a) = PlacedOnOverflow (store w a) /\
  CurrentShelfType (store r.2 a) = CurrentShelfType (store w a) /\
  DeliveredAt (store r.2 a) = DeliveredAt (store w a).
Proof.
  intros Hp Hfull Hfull' r. subst r. unfold IsFull in *.
  apply Z.leb_le in Hfull, Hfull'.
  rewrite (PlaceOrder_full sm a w p Hp Hfull Hfull'). simpl. rewrite Nat.eqb_refl.
  split; [done|]. split; [by intros []|]. split; [done|].
  split; [|repeat split].
  intros b Hne. by destruct (Nat.eqb_spec b a).
Qed.

(** X21: an accepted PlaceOrder of an order whose ID was on no shelf,
    followed by DeliverOrder of that ID: the delivery succeeds, the entries
    of every shelf are what they were before the placement, the order has
    the reading of the clock as delivered time, and the received and the
    delivered counters have each grown by one. *)
Theorem PlaceOrder_DeliverOrder_round_trip sm a w :
  resident sm (ID (store w a)) = false ->
  (PlaceOrder sm a w).1.1 = true ->
  let sm1 := (PlaceOrder sm a w).1.2 in
  let w1 := (PlaceOrder sm a w).2 in
  let r := DeliverOrder sm1 (ID (store w a)) w1 in
  r.1.1 = true /\
  (forall q, Orders (shelf_at r.1.2 q) = Orders (shelf_at sm q)) /\
  occupancy r.1.2 = occupancy sm /\
  DeliveredAt (store r.2 a) = clock w1 (ticks w1) /\
  TotalOrdersReceived r.1.2 = (TotalOrdersReceived sm + 1)%Z /\
  TotalOrdersDelivered r.1.2 = (TotalOrdersDelivered sm + 1)%Z.
Proof.
  intros Hfresh Hok sm1 w1 r.
  pose proof (resident_false _ _ Hfresh) as Hnone.
  assert (Hplaced : exists q s1,
             sm1 = set_shelf (incr_Received sm) q s1 /\
             Orders s1 = <[ID (store w a) := a]> (Orders (shelf_at sm q))).
  { subst sm1 w1 r.
    destruct (GetShelfForTemperature (Temp (store w a))) as [p|] eqn:Hp.
    2:{ by rewrite (PlaceOrder_unrecognized sm a w Hp) in Hok. }
    destruct (Z.leb_spec (Capacity (shelf_at sm p)) (len (Orders (shelf_at sm p))))
      as [Hfull|Hroom].
    2:{ rewrite (PlaceOrder_primary sm a w p Hp Hroom). simpl.
        destruct (AddOrder_result (shelf_at sm p) a w Hroom) as (w' & -> & _).
        by eexists p, _. }
    destruct (Z.leb_spec (Capacity (sm_OverflowShelf sm))
                (len (Orders (sm_OverflowShelf sm)))) as [Hfull'|Hroom'].
    { by rewrite (PlaceOrder_full sm a w p Hp Hfull Hfull') in Hok. }
    rewrite (PlaceOrder_overflow sm a w p Hp Hfull Hroom'). simpl.
    destruct (AddOrder_result (sm_OverflowShelf sm) a w Hroom') as (w' & -> & _).
    by eexists overflowShelf, _. }
  destruct Hplaced as (q & s1 & Hsm1 & Hs1).
  assert (Hq : Orders (shelf_at sm1 q) !! ID (store w a) = Some a).
  { rewrite Hsm1, shelf_at_set_shelf_eq, Hs1. apply lookup_insert_eq. }
  assert (Hothers : forall q', q' <> q -> shelf_at sm1 q' = shelf_at sm q').
  { intros q' Hne. rewrite Hsm1, shelf_at_set_shelf_ne by done.
    apply shelf_at_incr_Received. }
  assert (Hfirst : forall q', index q' < index q ->
                     Orders (shelf_at sm1 q') !! ID (store w a) = None).
  { intros q' Hlt. rewrite Hothers; [apply Hnone|]. intros ->. lia. }
  subst r. rewrite (DeliverOrder_result sm1 _ w1 q a Hq Hfirst).
  rewrite (MarkOrderDelivered_result _ _ _ _ Hq). simpl. rewrite Nat.eqb_refl. simpl.
  assert (Hmaps : forall q', Orders (shelf_at (incr_Delivered (set_shelf sm1 q
             {| Type_ := Type_ (shelf_at sm1 q); Capacity := Capacity (shelf_at sm1 q);
                stats := {| OrdersAdded := OrdersAdded (stats (shelf_at sm1 q));
                            OrdersRemoved := OrdersRemoved (stats (shelf_at sm1 q)) + 1;
                            OrdersWasted := OrdersWasted (stats (shelf_at sm1 q));
                            OrdersDelivered := OrdersDelivered (stats (shelf_at sm1 q)) + 1;
                            PeakUsage := PeakUsage (stats (shelf_at sm1 q)) |};
                Orders := delete (ID (store w a)) (Orders (shelf_at sm1 q)) |})) q')
           = Orders (shelf_at sm q')).
  { intros q'. rewrite shelf_at_incr_Delivered.
    destruct (shelf_at_set_shelf sm1 q q' (mkShelf (Type_ (shelf_at sm1 q))
       (Capacity (shelf_at sm1 q))
       (mkStats (OrdersAdded (stats (shelf_at sm1 q)))
          (OrdersRemoved (stats (shelf_at sm1 q)) + 1)
          (OrdersWasted (stats (shelf_at sm1 q)))
          (OrdersDelivered (stats (shelf_at sm1 q)) + 1)
          (PeakUsage (stats (shelf_at sm1 q))))
       (delete (ID (store w a)) (Orders (shelf_at sm1 q)))))
      as [[-> ->]|[-> Hne]].
    - simpl. rewrite Hsm1, shelf_at_set_shelf_eq, Hs1. apply delete_insert_id, Hnone.
    - by rewrite Hothers. }
  split; [done|]. split; [exact Hmaps|]. split.
  { rewrite !occupancy_shelf_at. unfold Size. by rewrite !Hmaps. }
  split; [done|]. rewrite Hsm1. by destruct q.
Qed.

(** X22: after any sequence of PlaceOrder, DeliverOrder and
    RemoveExpiredOrders calls on a new manager, every shelf has the type
    and the capacity it was made with, holds at most its capacity, and its
    statistics are consistent. *)
Theorem manager_capacity_bound (hot cold frozen overflow : nat) (ops : list Op) w
  (r : ShelfRef) :
  let sm0 := NewShelfManager (Z.of_nat hot) (Z.of_nat cold) (Z.of_nat frozen)
               (Z.of_nat overflow) in
  let sm := (run sm0 ops w).1 in
  Type_ (shelf_at sm r) = shelf_type r /\
  Capacity (shelf_at sm r) = Capacity (shelf_at sm0 r) /\
  (0 <= Size (shelf_at sm r) <= Capacity (shelf_at sm r))%Z /\
  stats_consistent (shelf_at sm r).
Proof.
  intros sm0 sm.
  destruct (run_manager_inv _ _ ops sm0 w (NewShelfManager_inv hot cold frozen overflow w))
    as [(Hsh & _) _].
  destruct (Hsh r) as (Ht & Hc & Hs). fold sm in Ht, Hc, Hs.
  split; [done|]. split; [done|]. split; [|done].
  unfold stats_consistent in Hs. lia.
Qed.

(** X23: after any such sequence TotalOrdersReceived is the number of
    PlaceOrder calls, no counter is negative, and delivered + wasted +
    expired + the four occupancies is at most the orders received (with
    equality lost when a placement replaces an entry of the same ID). *)
Theorem manager_counters (hot cold frozen overflow : nat) (ops : list Op) w :
  let sm := (run (NewShelfManager (Z.of_nat hot) (Z.of_nat cold) (Z.of_nat frozen)
                    (Z.of_nat overflow)) ops w).1 in
  TotalOrdersReceived sm = placements ops /\
  (0 <= TotalOrdersDelivered sm)%Z /\ (0 <= TotalOrdersWasted sm)%Z /\
  (0 <= TotalOrdersExpired sm)%Z /\
  (TotalOrdersDelivered sm + TotalOrdersWasted sm + TotalOrdersExpired sm + occupancy sm
   <= TotalOrdersReceived sm)%Z.
Proof.
  intros sm.
  destruct (run_manager_inv _ _ ops _ w (NewShelfManager_inv hot cold frozen overflow w))
    as [(Hsh & Hag & _) Hrec].
  fold sm in Hsh, Hag, Hrec.
  pose proof (proj2 (proj2 (Hsh hotShelf))) as H1.
  pose proof (proj2 (proj2 (Hsh coldShelf))) as H2.
  pose proof (proj2 (proj2 (Hsh frozenShelf))) as H3.
  pose proof (proj2 (proj2 (Hsh overflowShelf))) as H4.
  unfold stats_consistent, counters_agree, sum_stats, occupancy in *. simpl in *.
  split; [exact Hrec|]. lia.
Qed.

(** X24: after any such sequence the statistics of the four shelves add up
    to the manager's counters: OrdersAdded to received minus wasted,
    OrdersDelivered and OrdersRemoved to TotalOrdersDelivered, and the
    shelves' OrdersWasted to TotalOrdersExpired. *)
Theorem manager_counters_agree (hot cold frozen overflow : nat) (ops : list Op) w :
  let sm := (run (NewShelfManager (Z.of_nat hot) (Z.of_nat cold) (Z.of_nat frozen)
                    (Z.of_nat overflow)) ops w).1 in
  sum_stats OrdersAdded sm = (TotalOrdersReceived sm - TotalOrdersWasted sm)%Z /\
  sum_stats OrdersDelivered sm = TotalOrdersDelivered sm /\
  sum_stats OrdersRemoved sm = TotalOrdersDelivered sm /\
  sum_stats OrdersWasted sm = TotalOrdersExpired sm.
Proof.
  intros sm.
  destruct (run_manager_inv _ _ ops _ w (NewShelfManager_inv hot cold frozen overflow w))
    as [(_ & Hag & _) _].
  fold sm in Hag. unfold counters_agree in Hag. tauto.
Qed.

(** X25: after any such sequence every entry of every shelf is keyed by
    the ID of its order, the order is on the shelf of its temperature or
    on overflow, and its CurrentShelfType is its temperature or overflow. *)
Theorem manager_keyed_by_ID (hot cold frozen overflow : nat) (ops : list Op) w :
  let r := run (NewShelfManager (Z.of_nat hot) (Z.of_nat cold) (Z.of_nat frozen)
                  (Z.of_nat overflow)) ops w in
  keyed_by_ID r.1 r.2.
Proof.
  intros r.
  by destruct (run_manager_inv _ _ ops _ w (NewShelfManager_inv hot cold frozen overflow w))
    as [(_ & _ & Hk & _) _].
Qed.

(** X26: when the clock never reads the zero Time, after any such sequence
    every order on a shelf has a placement time, and every order on the
    overflow shelf an overflow-placement time. *)
Theorem manager_placement_stamped (hot cold frozen overflow : nat) (ops : list Op) w :
  (forall n, IsZero (clock w n) = false) ->
  let r := run (NewShelfManager (Z.of_nat hot) (Z.of_nat cold) (Z.of_nat frozen)
                  (Z.of_nat overflow)) ops w in
  placement_stamped r.1 r.2.
Proof.
  intros Hc r.
  destruct (run_manager_inv _ _ ops _ w (NewShelfManager_inv hot cold frozen overflow w))
    as [(_ & _ & _ & _ & Hp) _].
  by apply Hp.
Qed.
End ManagerInvariants.

(** ** Instances *)

Lemma CalculateValue_bounds_witness :
  (0 <= CalculateValue (pizza (F:=Q)) (T0 + sec 100))%Q /\
  (CalculateValue (pizza (F:=Q)) (T0 + sec 100) <= 1)%Q.
Proof.
  destruct (CalculateValue_bounds pizza (T0 + sec 100)) as [H1 H2]; [reflexivity|].
  split; [exact H1|]. apply H2; vm_compute; discriminate.
Defined.

Lemma CalculateValue_antitone_witness :
  (CalculateValue (pizza (F:=Q)) (T0 + sec 200) <=
   CalculateValue (pizza (F:=Q)) (T0 + sec 100))%Q.
Proof.
  apply CalculateValue_antitone; [reflexivity|vm_compute; discriminate..].
Defined.

Lemma CalculateValueV2_le_witness :
  (CalculateValueV2 (fries (F:=Q)) (T0 + sec 100) <=
   CalculateValue (fries (F:=Q)) (T0 + sec 100))%Q.
Proof.
  apply CalculateValueV2_le; [reflexivity|vm_compute; discriminate|].
  vm_compute. split; discriminate.
Defined.

Lemma AddOrder_places_order_witness :
  (AddOrder (NewShelf HotShelf 2) 1 (kitchen (F:=float))).1.1 = true /\
  GetOrder (AddOrder (NewShelf HotShelf 2) 1 (kitchen (F:=float))).1.2 "1" = Some 1 /\
  Size (AddOrder (NewShelf HotShelf 2) 1 (kitchen (F:=float))).1.2 = 1%Z /\
  CurrentShelfType (store (AddOrder (NewShelf HotShelf 2) 1 (kitchen (F:=float))).2 1) = "hot" /\
  PlacedOnShelfAt (store (AddOrder (NewShelf HotShelf 2) 1 (kitchen (F:=float))).2 1) = T0.
Proof.
  destruct (AddOrder_places_order (NewShelf HotShelf 2) 1 (kitchen (F:=float)))
    as (P1 & P2 & _ & P4 & P5 & P6 & _); [reflexivity|].
  split; [exact P1|]. split; [exact P2|]. split; [exact P4|]. split; [exact P5|exact P6].
Defined.

Lemma AddOrder_RemoveOrder_round_trip_witness :
  (RemoveOrder (AddOrder (NewShelf FrozenShelf 2) 3 (kitchen (F:=float))).1.2 "3"
     (AddOrder (NewShelf FrozenShelf 2) 3 (kitchen (F:=float))).2).1.1 = Some 3 /\
  Orders (RemoveOrder (AddOrder (NewShelf FrozenShelf 2) 3 (kitchen (F:=float))).1.2 "3"
            (AddOrder (NewShelf FrozenShelf 2) 3 (kitchen (F:=float))).2).1.2 =
  Orders (NewShelf FrozenShelf 2).
Proof.
  destruct (AddOrder_RemoveOrder_round_trip (NewShelf FrozenShelf 2) 3 (kitchen (F:=float)))
    as (P1 & P2 & _); [reflexivity|reflexivity|].
  split; [exact P1|exact P2].
Defined.

Lemma MarkOrderDelivered_once_witness :
  (MarkOrderDelivered (AddOrder (NewShelf HotShelf 2) 1 (kitchen (F:=float))).1.2 "1"
     (AddOrder (NewShelf HotShelf 2) 1 (kitchen (F:=float))).2).1.1 = true /\
  GetOrder
    (MarkOrderDelivered (AddOrder (NewShelf HotShelf 2) 1 (kitchen (F:=float))).1.2 "1"
       (AddOrder (NewShelf HotShelf 2) 1 (kitchen (F:=float))).2).1.2 "1" = None.
Proof.
  destruct (MarkOrderDelivered_once (AddOrder (NewShelf HotShelf 2) 1 (kitchen (F:=float))).1.2
              "1" 1 (AddOrder (NewShelf HotShelf 2) 1 (kitchen (F:=float))).2)
    as (P1 & P2 & _); [reflexivity|].
  split; [exact P1|exact P2].
Defined.

Lemma range_any_order_witness :
  (range (reverse (map_to_list (Orders (add_all (NewShelf HotShelf 3) [1; 8]
                                          (kitchen (F:=float))).1.2)))
     (T0 + sec 10)
     (0%Z, (add_all (NewShelf HotShelf 3) [1; 8] (kitchen (F:=float))).1.2)
     (add_all (NewShelf HotShelf 3) [1; 8] (kitchen (F:=float))).2).1 =
  (range (map_to_list (Orders (add_all (NewShelf HotShelf 3) [1; 8]
                                 (kitchen (F:=float))).1.2))
     (T0 + sec 10)
     (0%Z, (add_all (NewShelf HotShelf 3) [1; 8] (kitchen (F:=float))).1.2)
     (add_all (NewShelf HotShelf 3) [1; 8] (kitchen (F:=float))).2).1.
Proof.
  apply (range_any_order (add_all (NewShelf HotShelf 3) [1; 8] (kitchen (F:=float))).1.2).
  apply reverse_Permutation.
Defined.

Lemma PlaceOrder_on_primary_witness :
  (PlaceOrder (NewShelfManager 1 1 1 1) 1 (kitchen (F:=float))).1.1 = true /\
  GetOrder (sm_HotShelf (PlaceOrder (NewShelfManager 1 1 1 1) 1 (kitchen (F:=float))).1.2)
    "1" = Some 1 /\
  sm_OverflowShelf (PlaceOrder (NewShelfManager 1 1 1 1) 1 (kitchen (F:=float))).1.2 =
    sm_OverflowShelf (NewShelfManager 1 1 1 1).
Proof.
  destruct (PlaceOrder_on_primary (NewShelfManager 1 1 1 1) 1 (kitchen (F:=float)) hotShelf)
    as (P1 & _ & _ & P4 & P5 & _); [reflexivity|reflexivity|].
  split; [exact P1|]. split; [exact P4|]. exact (P5 overflowShelf ltac:(discriminate)).
Defined.

Lemma PlaceOrder_on_overflow_witness :
  (PlaceOrder (run (NewShelfManager 1 1 1 2) [OpPlace 1] (kitchen (F:=float))).1 4
     (run (NewShelfManager 1 1 1 2) [OpPlace 1] (kitchen (F:=float))).2).1.1 = true /\
  GetOrder
    (sm_OverflowShelf
       (PlaceOrder (run (NewShelfManager 1 1 1 2) [OpPlace 1] (kitchen (F:=float))).1 4
          (run (NewShelfManager 1 1 1 2) [OpPlace 1] (kitchen (F:=float))).2).1.2)
    "4" = Some 4 /\
  CurrentShelfType
    (store
       (PlaceOrder (run (NewShelfManager 1 1 1 2) [OpPlace 1] (kitchen (F:=float))).1 4
          (run (NewShelfManager 1 1 1 2) [OpPlace 1] (kitchen (F:=float))).2).2 4)
  = "overflow".
Proof.
  destruct (PlaceOrder_on_overflow
              (run (NewShelfManager 1 1 1 2) [OpPlace 1] (kitchen (F:=float))).1 4
              (run (NewShelfManager 1 1 1 2) [OpPlace 1] (kitchen (F:=float))).2 hotShelf)
    as (P1 & _ & P3 & _ & P5 & _); [reflexivity|reflexivity|reflexivity|].
  split; [exact P1|]. split; [exact P3|exact P5].
Defined.

Lemma PlaceOrder_rejected_when_full_witness :
  (PlaceOrder (run (NewShelfManager 1 1 1 1) [OpPlace 1; OpPlace 4] (kitchen (F:=float))).1 5
     (run (NewShelfManager 1 1 1 1) [OpPlace 1; OpPlace 4] (kitchen (F:=float))).2).1.1
  = false /\
  TotalOrdersWasted
    (PlaceOrder (run (NewShelfManager 1 1 1 1) [OpPlace 1; OpPlace 4] (kitchen (F:=float))).1 5
       (run (NewShelfManager 1 1 1 1) [OpPlace 1; OpPlace 4] (kitchen (F:=float))).2).1.2
  = 1%Z /\
  WastedAt
    (store
       (PlaceOrder
          (run (NewShelfManager 1 1 1 1) [OpPlace 1; OpPlace 4] (kitchen (F:=float))).1 5
          (run (NewShelfManager 1 1 1 1) [OpPlace 1; OpPlace 4] (kitchen (F:=float))).2).2 5)
  = (T0 + sec 4)%Z.
Proof.
  destruct (PlaceOrder_rejected_when_full
              (run (NewShelfManager 1 1 1 1) [OpPlace 1; OpPlace 4] (kitchen (F:=float))).1 5
              (run (NewShelfManager 1 1 1 1) [OpPlace 1; OpPlace 4] (kitchen (F:=float))).2
              hotShelf)
    as (P1 & _ & _ & _ & _ & P6 & P7 & _); [reflexivity|reflexivity|reflexivity|].
  split; [exact P1|]. split; [exact P6|exact P7].
Defined.

Lemma PlaceOrder_DeliverOrder_round_trip_witness :
  (DeliverOrder (PlaceOrder (NewShelfManager 1 1 1 1) 1 (kitchen (F:=float))).1.2 "1"
     (PlaceOrder (NewShelfManager 1 1 1 1) 1 (kitchen (F:=float))).2).1.1 = true /\
  occupancy
    (DeliverOrder (PlaceOrder (NewShelfManager 1 1 1 1) 1 (kitchen (F:=float))).1.2 "1"
       (PlaceOrder (NewShelfManager 1 1 1 1) 1 (kitchen (F:=float))).2).1.2
  = occupancy (NewShelfManager 1 1 1 1).
Proof.
  destruct (PlaceOrder_DeliverOrder_round_trip (NewShelfManager 1 1 1 1) 1
              (kitchen (F:=float)))
    as (P1 & _ & P3 & _); [reflexivity|reflexivity|].
  split; [exact P1|exact P3].
Defined.

Lemma manager_placement_stamped_witness :
  placement_stamped
    (run (NewShelfManager (Z.of_nat 1) (Z.of_nat 1) (Z.of_nat 1) (Z.of_nat 2))
       [OpPlace 1; OpPlace 4; OpDeliver "1"; OpSweep] (kitchen (F:=float))).1
    (run (NewShelfManager (Z.of_nat 1) (Z.of_nat 1) (Z.of_nat 1) (Z.of_nat 2))
       [OpPlace 1; OpPlace 4; OpDeliver "1"; OpSweep] (kitchen (F:=float))).2.
Proof.
  apply (manager_placement_stamped 1 1 1 2 [OpPlace 1; OpPlace 4; OpDeliver "1"; OpSweep]
           (kitchen (F:=float))).
  intros n. apply Z.eqb_neq. simpl. unfold T0, sec, Second. lia.
Defined.
